(** * Joint-centre estimation ([lib/joints.py]): shallow embedding and properties

    The Python class [Center] estimates the position of a joint centre from
    two inertial sensors.  This development embeds [Center.compute] and
    [Center.compute_distance_residuals] and proves what the specification
    says about them.

    Numbers.  The program computes on IEEE binary64 numbers.  Every
    definition below is written once, over a type [F] of scalars carrying
    the operations the program uses ([Scalar]); two instances are provided:
    - [float_scalar]: Rocq's primitive binary64 floats, which evaluate the
      threshold ladder bit for bit as the interpreter does;
    - [Qc_scalar]: canonical rationals, for statements in exact arithmetic.
    Algebraic statements are proved for every scalar type satisfying the
    ring laws.

    Library calls.  [numpy.linalg.norm], [numpy.linalg.lstsq] and
    [scipy.optimize.least_squares] are parameters of the model. *)

From Stdlib Require Import ZArith QArith Qround Qcanon Qcabs PrimFloat Ring.
From Stdlib Require Uint63 Floats.
From stdpp Require Import base list strings.

Set Default Proof Using "Type".

(** ** Scalars *)

Class Scalar (F : Type) : Type := {
  s0 : F;
  s1 : F;
  sadd : F -> F -> F;
  ssub : F -> F -> F;
  smul : F -> F -> F;
  sdiv : F -> F -> F;
  sopp : F -> F;
  sabs : F -> F;
  (** [sgtb x y] is the comparison [x > y]; [sltb x y] is [x < y]. *)
  sgtb : F -> F -> bool;
  sltb : F -> F -> bool;
  (** A decimal literal of the program text, given as a fraction. *)
  lit : Q -> F;
  (** Conversion of an integer (a sample count) to a scalar. *)
  of_int : Z -> F
}.

Declare Scope scalar_scope.
Delimit Scope scalar_scope with sc.
Infix "+" := sadd : scalar_scope.
Infix "-" := ssub : scalar_scope.
Infix "*" := smul : scalar_scope.
Infix "/" := sdiv : scalar_scope.
Notation "- x" := (sopp x) : scalar_scope.

(** *** IEEE binary64 *)

Definition float_of_Z (z : Z) : float :=
  match z with
  | Z0 => PrimFloat.zero
  | Zpos _ => PrimFloat.of_uint63 (Uint63.of_Z z)
  | Zneg p => PrimFloat.opp (PrimFloat.of_uint63 (Uint63.of_Z (Zpos p)))
  end.

(** The correctly rounded quotient of two small integers is the double
    nearest to the fraction, which is what a decimal literal denotes. *)
Definition float_lit (q : Q) : float :=
  PrimFloat.div (float_of_Z (Qnum q)) (float_of_Z (Zpos (Qden q))).

#[export] Instance float_scalar : Scalar float := {|
  s0 := PrimFloat.zero;
  s1 := PrimFloat.one;
  sadd := PrimFloat.add;
  ssub := PrimFloat.sub;
  smul := PrimFloat.mul;
  sdiv := PrimFloat.div;
  sopp := PrimFloat.opp;
  sabs := PrimFloat.abs;
  sgtb := fun x y => PrimFloat.ltb y x;
  sltb := PrimFloat.ltb;
  lit := float_lit;
  of_int := float_of_Z
|}.

(** *** Exact rationals *)

Definition Qc_ltb (x y : Qc) : bool :=
  match Qccompare x y with Lt => true | _ => false end.

#[export] Instance Qc_scalar : Scalar Qc := {|
  s0 := Q2Qc 0;
  s1 := Q2Qc 1;
  sadd := Qcplus;
  ssub := Qcminus;
  smul := Qcmult;
  sdiv := Qcdiv;
  sopp := Qcopp;
  sabs := Qcabs;
  sgtb := fun x y => Qc_ltb y x;
  sltb := Qc_ltb;
  lit := Q2Qc;
  of_int := fun z => Q2Qc (inject_Z z)
|}.

(** ** Vectors, matrices and the array primitives of numpy that the code uses *)

Record vec3 (A : Type) : Type := V3 { vx : A; vy : A; vz : A }.
Arguments V3 {A} _ _ _.
Arguments vx {A} _.
Arguments vy {A} _.
Arguments vz {A} _.

Record mat3 (A : Type) : Type := M3 { row0 : vec3 A; row1 : vec3 A; row2 : vec3 A }.
Arguments M3 {A} _ _ _.
Arguments row0 {A} _.
Arguments row1 {A} _.
Arguments row2 {A} _.

(** Exceptions the function can raise. *)
Inductive exn : Type :=
  | ValueError_motion      (* 'Not enough samples or samples with high motion ...' *)
  | ValueError_broadcast   (* operands could not be broadcast together *)
  | ValueError_cross       (* incompatible dimensions for cross product *)
  | IndexError             (* boolean index of the wrong length, or [residual[0]] on an empty array *)
  | UnboundLocalError      (* [r] read before assignment *)
  | SolverError.           (* raised inside a library solver (LinAlgError and the like) *)

(** Result of running a piece of the program with a bound on the number of
    loop iterations: it returns, raises, or exhausts the bound. *)
Inductive outcome (A : Type) : Type :=
  | Returned (a : A)
  | Raised (e : exn)
  | OutOfFuel.
Arguments Returned {A} _.
Arguments Raised {A} _.
Arguments OutOfFuel {A}.

Definition obind {A B} (m : outcome A) (k : A -> outcome B) : outcome B :=
  match m with
  | Returned a => k a
  | Raised e => Raised e
  | OutOfFuel => OutOfFuel
  end.

#[export] Instance outcome_ret : MRet outcome := @Returned.
#[export] Instance outcome_bind : MBind outcome := fun A B k m => obind m k.

(** [u op v] on two arrays whose trailing axes agree: numpy's broadcasting
    rule along the first axis. *)
Definition broadcast2 {A B C} (f : A -> B -> C) (u : list A) (v : list B)
  : outcome (list C) :=
  if decide (length u = length v) then Returned (zip_with f u v)
  else match u, v with
       | [a], _ => Returned (map (f a) v)
       | _, [b] => Returned (map (fun a => f a b) u)
       | _, _ => Raised ValueError_broadcast
       end.

(** [arr[mask]] for a boolean [mask]. *)
Fixpoint select {A} (mask : list bool) (arr : list A) : list A :=
  match mask, arr with
  | b :: mask', a :: arr' => if b then a :: select mask' arr' else select mask' arr'
  | _, _ => []
  end.

Definition bool_index {A} (mask : list bool) (arr : list A) : outcome (list A) :=
  if decide (length mask = length arr) then Returned (select mask arr)
  else Raised IndexError.

(** [mask.sum()]: the booleans summed as integers. *)
Definition mask_sum (mask : list bool) : Z :=
  foldr (fun (b : bool) n => ((if b then 1 else 0) + n)%Z) 0%Z mask.

(** [arr[0]] on a one-dimensional array. *)
Definition index0 {A} (arr : list A) : outcome A :=
  match arr with
  | a :: _ => Returned a
  | [] => Raised IndexError
  end.

Definition zip_with3 {A B C D} (f : A -> B -> C -> D)
    (u : list A) (v : list B) (w : list C) : list D :=
  zip_with (fun (h : C -> D) c => h c) (zip_with f u v) w.

(** An array of shape (3, 3, M), written as a 3x3 table of length-M
    columns, transposed with axes [2, 0, 1] to shape (M, 3, 3). *)
Definition transpose_201 {A} (t : mat3 (list A)) : list (mat3 A) :=
  let row r := zip_with3 V3 (vx r) (vy r) (vz r) in
  zip_with3 M3 (row (row0 t)) (row (row1 t)) (row (row2 t)).

(** Configuration: the attributes set by [Center.__init__]. *)
Record Center (F Kw : Type) : Type := {
  g : F;
  method : string;
  mask_input : bool;
  min_samples : Z;
  opt_kwargs : Kw
}.
Arguments g {F Kw} _.
Arguments method {F Kw} _.
Arguments mask_input {F Kw} _.
Arguments min_samples {F Kw} _.
Arguments opt_kwargs {F Kw} _.

(** [Center.__init__] (lines 15-43): each keyword argument left out takes
    its default; [no_kwargs] is the empty dictionary of the default
    [opt_kwargs={}]. *)
Definition Center_init {F : Type} `{Scalar F} {Kw : Type} (no_kwargs : Kw)
    (g' : option F) (method' : option string) (mask_input' : option bool)
    (min_samples' : option Z) (opt_kwargs' : option Kw) : Center F Kw :=
  {| g := default (lit (981 # 100)) g';
     method := default "SAC" method';
     mask_input := default true mask_input';
     min_samples := default 1000%Z min_samples';
     opt_kwargs := default no_kwargs opt_kwargs' |}.

(** The fields of scipy's result object that the code reads. *)
Record OptimizeResult (F : Type) : Type := { sol_x : list F; sol_cost : F }.
Arguments sol_x {F} _.
Arguments sol_cost {F} _.

(** The tuple [args] handed to the nonlinear solver. *)
Definition Args (F : Type) : Type :=
  (list (vec3 F) * list (vec3 F) * list (vec3 F) * list (vec3 F)
   * list (vec3 F) * list (vec3 F))%type.

(** What [numpy.linalg.lstsq] returns: solution, residuals, rank, singular values. *)
Definition LstsqResult (F : Type) : Type :=
  (list (list F) * list F * Z * list F)%type.

(** ** The program *)

Section Model.
Context {F : Type} `{Scalar F}.
Local Open Scope scalar_scope.

(** *** Arithmetic on 3-vectors and 3x3 matrices *)

Definition vsub (u v : vec3 F) : vec3 F :=
  V3 (vx u - vx v) (vy u - vy v) (vz u - vz v).

Definition vadd (u v : vec3 F) : vec3 F :=
  V3 (vx u + vx v) (vy u + vy v) (vz u + vz v).

(** [numpy.cross] on two 3-vectors. *)
Definition cross (a b : vec3 F) : vec3 F :=
  V3 (vy a * vz b - vz a * vy b)
     (vz a * vx b - vx a * vz b)
     (vx a * vy b - vy a * vx b).

Definition dot3 (u v : vec3 F) : F :=
  vx u * vx v + vy u * vy v + vz u * vz v.

(** [m @ v] for a 3x3 matrix and a 3x1 column. *)
Definition mat_vec (m : mat3 F) (v : vec3 F) : vec3 F :=
  V3 (dot3 (row0 m) v) (dot3 (row1 m) v) (dot3 (row2 m) v).

Definition mat_col0 (m : mat3 F) : vec3 F := V3 (vx (row0 m)) (vx (row1 m)) (vx (row2 m)).
Definition mat_col1 (m : mat3 F) : vec3 F := V3 (vy (row0 m)) (vy (row1 m)) (vy (row2 m)).
Definition mat_col2 (m : mat3 F) : vec3 F := V3 (vz (row0 m)) (vz (row1 m)) (vz (row2 m)).

(** [m @ n] for two 3x3 matrices. *)
Definition mat_mul (m n : mat3 F) : mat3 F :=
  let row r := V3 (dot3 r (mat_col0 n)) (dot3 r (mat_col1 n)) (dot3 r (mat_col2 n)) in
  M3 (row (row0 m)) (row (row1 m)) (row (row2 m)).

Definition vopp (v : vec3 F) : vec3 F := V3 (- vx v) (- vy v) (- vz v).
Definition mat_opp (m : mat3 F) : mat3 F :=
  M3 (vopp (row0 m)) (vopp (row1 m)) (vopp (row2 m)).

(** Elementwise operations on columns of equal length. *)
Definition cadd : list F -> list F -> list F := zip_with sadd.
Definition csub : list F -> list F -> list F := zip_with ssub.
Definition cmul : list F -> list F -> list F := zip_with smul.
Definition cneg : list F -> list F := map sopp.
(** [c ** 2] *)
Definition csq : list F -> list F := map (fun x => x * x).

(** *** Sample selection (lines 76-91 and, word for word, 127-142) *)

Variable norm : vec3 F -> F.

(** [norm(a, axis=1) - self.g] *)
Definition dyn_accel (grav : F) (a : list (vec3 F)) : list F :=
  map (fun v => norm v - grav) a.

(** [nabs(an) > thresh] *)
Definition above (thresh : F) (an : list F) : list bool :=
  map (fun x => sgtb (sabs x) thresh) an.

Definition logical_and : list bool -> list bool -> outcome (list bool) :=
  broadcast2 andb.

(** The body of the [while] loop runs once per unit of [fuel]. *)
Fixpoint mask_loop (fuel : nat) (min_n : Z) (prox_an dist_an : list F)
    (mask : list bool) (thresh : F) : outcome (list bool) :=
  if (mask_sum mask <? min_n)%Z then
    match fuel with
    | O => OutOfFuel
    | S fuel' =>
        mask' ← logical_and (above thresh prox_an) (above thresh dist_an);
        let thresh' := thresh - lit (5 # 100) in
        if sltb thresh' (lit (9 # 100)) then Raised ValueError_motion
        else mask_loop fuel' min_n prox_an dist_an mask' thresh'
    end
  else Returned mask.

Definition select_mask {Kw} (fuel : nat) (self : Center F Kw)
    (prox_a dist_a : list (vec3 F)) : outcome (list bool) :=
  if mask_input self then
    let prox_an := dyn_accel (g self) prox_a in
    let dist_an := dyn_accel (g self) dist_a in
    mask_loop fuel (min_samples self) prox_an dist_an
      (replicate (length prox_an) false) (lit (8 # 10))
  else Returned (replicate (length prox_a) true).

(** *** The skew-symmetric matrix products (lines 94-112) *)

(** Column [k] of an Nx3 array: [w[mask, k]] once [w[mask]] is taken. *)
Definition col0 (w : list (vec3 F)) : list F := map vx w.
Definition col1 (w : list (vec3 F)) : list F := map vy w.
Definition col2 (w : list (vec3 F)) : list F := map vz w.

Definition skew_products (w wd : list (vec3 F)) : list (mat3 F) :=
  transpose_201
    (M3 (V3 (csub (cneg (csq (col1 w))) (csq (col2 w)))
            (csub (cmul (col0 w) (col1 w)) (col2 wd))
            (cadd (col1 wd) (cmul (col0 w) (col2 w))))
        (V3 (cadd (col2 wd) (cmul (col0 w) (col1 w)))
            (csub (cneg (csq (col0 w))) (csq (col2 w)))
            (csub (cmul (col1 w) (col2 w)) (col0 wd)))
        (V3 (csub (cmul (col0 w) (col2 w)) (col1 wd))
            (cadd (col0 wd) (cmul (col1 w) (col2 w)))
            (csub (cneg (csq (col0 w))) (csq (col1 w))))).

(** *** The linear system of method SAC (lines 114-117) *)

(** [concatenate((K, L), axis=2)] on one sample: a 3x6 block. *)
Definition hcat (k l : mat3 F) : list (list F) :=
  let row r r' := [vx r; vy r; vz r; vx r'; vy r'; vz r'] in
  [row (row0 k) (row0 l); row (row1 k) (row1 l); row (row2 k) (row2 l)].

(** A 3-vector reshaped to a 3x1 column. *)
Definition column (v : vec3 F) : list (list F) := [[vx v]; [vy v]; [vz v]].

Definition sac_A (prox_K dist_K : list (mat3 F)) (Rm : list (mat3 F))
  : list (list F) :=
  concat (zip_with hcat prox_K (zip_with mat_mul (map mat_opp Rm) dist_K)).

Definition sac_b (pa da : list (vec3 F)) (Rm : list (mat3 F)) : list (list F) :=
  concat (map column (zip_with vsub pa (zip_with mat_vec Rm da))).

(** [r.resize((6,))]: the first six entries of the data, zero-filled. *)
Definition resize6 (r : list (list F)) : list F :=
  take 6 (concat r ++ replicate 6 s0).

(** *** The residual function of method SSFC (lines 181-187) *)

(** [cross(w, r, axisb=0)] for a row [w] of an Nx3 array and a
    one-dimensional array [r]: the cross product if [r] has three entries;
    if it has two, [numpy.cross] reads it as (r0, r1, 0) and computes the
    three components as written below; any other size is rejected. *)
Definition cross_with (r : list F) : outcome (vec3 F -> vec3 F) :=
  match r with
  | [b0; b1; b2] => Returned (fun a => cross a (V3 b0 b1 b2))
  | [b0; b1] =>
      Returned (fun a => V3 (- (vz a * b1)) (vz a * b0) (vx a * b1 - vy a * b0))
  | _ => Raised ValueError_cross
  end.

(** [a - cross(w, cross(w, r, axisb=0)) - cross(wd, r, axisb=0)] *)
Definition transported (a w wd : list (vec3 F)) (r : list F)
  : outcome (list (vec3 F)) :=
  cr ← cross_with r;
  wr ← broadcast2 cross w (map cr w);
  d ← broadcast2 vsub a wr;
  broadcast2 vsub d (map cr wd).

Definition compute_distance_residuals (r : list F) (args : Args F)
  : outcome (list F) :=
  let '(a1, a2, w1, w2, wd1, wd2) := args in
  let r1 := take 3 r in
  let r2 := drop 3 r in
  at1 ← transported a1 w1 wd1 r1;
  at2 ← transported a2 w2 wd2 r2;
  broadcast2 ssub (map norm at1) (map norm at2).

(** *** [Center.compute] *)

Context {Kw : Type}.
Variable lstsq : list (list F) -> list (list F) -> outcome (LstsqResult F).
Variable least_squares :
  (list F -> Args F -> outcome (list F)) -> list F -> Args F -> Kw ->
  outcome (OptimizeResult F).

(** The indexing and assembly of lines 94-117: every array is indexed
    by the mask, then [A] and [b] are built. *)
Definition sac_system (mask : list bool)
    (prox_a dist_a prox_w dist_w prox_wd dist_wd : list (vec3 F))
    (R_dist_prox : list (mat3 F)) : outcome (list (list F) * list (list F)) :=
  pw ← bool_index mask prox_w;
  pwd ← bool_index mask prox_wd;
  let prox_K := skew_products pw pwd in
  dw ← bool_index mask dist_w;
  dwd ← bool_index mask dist_wd;
  let dist_K := skew_products dw dwd in
  Rm ← bool_index mask R_dist_prox;
  pa ← bool_index mask prox_a;
  da ← bool_index mask dist_a;
  Returned (sac_A prox_K dist_K Rm, sac_b pa da Rm).

(** The tuple [args] of line 145. *)
Definition ssfc_args (mask : list bool)
    (prox_a dist_a prox_w dist_w prox_wd dist_wd : list (vec3 F))
  : outcome (Args F) :=
  pa ← bool_index mask prox_a;
  da ← bool_index mask dist_a;
  pw ← bool_index mask prox_w;
  dw ← bool_index mask dist_w;
  pwd ← bool_index mask prox_wd;
  dwd ← bool_index mask dist_wd;
  Returned (pa, da, pw, dw, pwd, dwd).

Definition compute (fuel : nat) (self : Center F Kw)
    (prox_a dist_a prox_w dist_w prox_wd dist_wd : list (vec3 F))
    (R_dist_prox : list (mat3 F)) : outcome (list F * list F * F) :=
  if decide (method self = "SAC") then
    mask ← select_mask fuel self prox_a dist_a;
    '(A, b) ← sac_system mask prox_a dist_a prox_w dist_w prox_wd dist_wd R_dist_prox;
    '(r, residual, _, _) ← lstsq A b;
    let r := resize6 r in
    residual ← index0 residual;
    Returned (take 3 r, drop 3 r, residual / of_int (mask_sum mask))
  else if decide (method self = "SSFC") then
    let r_init := replicate 6 s0 in
    mask ← select_mask fuel self prox_a dist_a;
    args ← ssfc_args mask prox_a dist_a prox_w dist_w prox_wd dist_wd;
    sol ← least_squares compute_distance_residuals r_init args (opt_kwargs self);
    let r := sol_x sol in
    let residual := sol_cost sol in
    Returned (take 3 r, drop 3 r, residual / of_int (mask_sum mask))
  else Raised UnboundLocalError.

End Model.

(** ** The threshold ladder, as the specification describes it *)

Section Ladder.
Context {F : Type} `{Scalar F}.
Local Open Scope scalar_scope.

(** One decrement of the threshold. *)
Definition lower (t : F) : F := t - lit (5 # 100).

(** Step [k] of the ladder that starts at 0.8 and descends by 0.05. *)
Definition ladder (k : nat) : F := Nat.iter k lower (lit (8 # 10)).

(** The threshold has crossed the floor 0.09. *)
Definition below_floor (t : F) : bool := sltb t (lit (9 # 100)).

(** Samples at which both sensors exceed [thresh] (logical AND). *)
Definition mask_at (thresh : F) (prox_an dist_an : list F) : list bool :=
  zip_with andb (above thresh prox_an) (above thresh dist_an).

(** The retained count at ladder step [k]. *)
Definition count_at (k : nat) (prox_an dist_an : list F) : Z :=
  mask_sum (mask_at (ladder k) prox_an dist_an).

(** Step [n] is the last ladder step that is not below the floor. *)
Definition last_step_above_floor (n : nat) : Prop :=
  (forall j, (j <= n)%nat -> below_floor (ladder j) = false)
  /\ below_floor (ladder (S n)) = true.
End Ladder.

(** ** The estimation problem, as the specification describes it *)

(** One time sample of a segment pair: both sensors' acceleration, angular
    velocity and angular acceleration, and the rotation from the distal to
    the proximal frame. *)
Record sample (F : Type) : Type := {
  s_prox_a : vec3 F;
  s_dist_a : vec3 F;
  s_prox_w : vec3 F;
  s_dist_w : vec3 F;
  s_prox_wd : vec3 F;
  s_dist_wd : vec3 F;
  s_R : mat3 F
}.
Arguments s_prox_a {F} _.
Arguments s_dist_a {F} _.
Arguments s_prox_w {F} _.
Arguments s_dist_w {F} _.
Arguments s_prox_wd {F} _.
Arguments s_dist_wd {F} _.
Arguments s_R {F} _.

Section Spec.
Context {F : Type} `{Scalar F}.
Local Open Scope scalar_scope.

(** The operator K(w, wd) of section 4.2. *)
Definition skew_K (w wd : vec3 F) : mat3 F :=
  M3 (V3 (- (vy w * vy w + vz w * vz w))
         (vx w * vy w - vz wd)
         (vy wd + vx w * vz w))
     (V3 (vz wd + vx w * vy w)
         (- (vx w * vx w + vz w * vz w))
         (vy w * vz w - vx wd))
     (V3 (vx w * vz w - vy wd)
         (vx wd + vy w * vz w)
         (- (vx w * vx w + vy w * vy w))).

(** The 3x6 block [K_prox | - R K_dist] of one sample (section 4.3). *)
Definition sac_block (s : sample F) : list (list F) :=
  hcat (skew_K (s_prox_w s) (s_prox_wd s))
       (mat_opp (mat_mul (s_R s) (skew_K (s_dist_w s) (s_dist_wd s)))).

(** The 3x1 block [a_prox - R a_dist] of one sample. *)
Definition sac_rhs (s : sample F) : list (list F) :=
  column (vsub (s_prox_a s) (mat_vec (s_R s) (s_dist_a s))).

(** Blocks stacked over the retained samples. *)
Definition stack (block : sample F -> list (list F)) (kept : list (sample F))
  : list (list F) :=
  concat (map block kept).

(** The samples at which a mask holds True, read off the pairs of mask
    entry and sample. *)
Definition retained {A} (mask : list bool) (trial : list A) : list A :=
  map snd (filter (fun p : bool * A => fst p = true) (zip mask trial)).

(** The block [K_prox | - R K_dist] of one sample, entry by entry: row i
    holds row i of K_prox, then the negated products of row i of R with
    the three columns of K_dist. *)
Definition sac_block_entries (s : sample F) : list (list F) :=
  let K := skew_K (s_prox_w s) (s_prox_wd s) in
  let D := skew_K (s_dist_w s) (s_dist_wd s) in
  let times (r : vec3 F) (column_of : vec3 F -> F) : F :=
    - (vx r * column_of (row0 D) + vy r * column_of (row1 D)
       + vz r * column_of (row2 D)) in
  [ [vx (row0 K); vy (row0 K); vz (row0 K);
     times (row0 (s_R s)) vx; times (row0 (s_R s)) vy; times (row0 (s_R s)) vz];
    [vx (row1 K); vy (row1 K); vz (row1 K);
     times (row1 (s_R s)) vx; times (row1 (s_R s)) vy; times (row1 (s_R s)) vz];
    [vx (row2 K); vy (row2 K); vz (row2 K);
     times (row2 (s_R s)) vx; times (row2 (s_R s)) vy; times (row2 (s_R s)) vz] ].

(** The block [a_prox - R a_dist] of one sample, entry by entry. *)
Definition sac_rhs_entries (s : sample F) : list (list F) :=
  let a := s_prox_a s in
  let d := s_dist_a s in
  let times (r : vec3 F) : F := vx r * vx d + vy r * vy d + vz r * vz d in
  [ [vx a - times (row0 (s_R s))];
    [vy a - times (row1 (s_R s))];
    [vz a - times (row2 (s_R s))] ].

(** The residual e_i of section 4.4. *)
Definition ssfc_residual (norm : vec3 F -> F) (r_prox r_dist : vec3 F)
    (s : sample F) : F :=
  norm (vsub (s_prox_a s) (mat_vec (skew_K (s_prox_w s) (s_prox_wd s)) r_prox))
  - norm (vsub (s_dist_a s) (mat_vec (skew_K (s_dist_w s) (s_dist_wd s)) r_dist)).

(** The arguments of the residual function, read off the retained samples. *)
Definition args_of (kept : list (sample F)) : Args F :=
  (map s_prox_a kept, map s_dist_a kept, map s_prox_w kept,
   map s_dist_w kept, map s_prox_wd kept, map s_dist_wd kept).

(** The product of a matrix, given by its rows, with a vector: a column. *)
Definition dot_row (row r : list F) : F := foldr sadd s0 (zip_with smul row r).
Definition apply_rows (A : list (list F)) (r : list F) : list (list F) :=
  map (fun row => [dot_row row r]) A.

(** The unknown of the linear system: both offsets, one after the other. *)
Definition offsets (r_prox r_dist : vec3 F) : list F :=
  [vx r_prox; vy r_prox; vz r_prox; vx r_dist; vy r_dist; vz r_dist].

Definition vscale (c : F) (u : vec3 F) : vec3 F :=
  V3 (c * vx u) (c * vy u) (c * vz u).

(** Rigid-body kinematics of one sample about a joint centre whose
    acceleration is [aJ] in the distal frame: each sensor reads the centre's
    acceleration plus w x (w x r) + wd x r for its own offset r. *)
Definition rigid_body (r_prox r_dist : vec3 F) (s : sample F) : Prop :=
  exists aJ : vec3 F,
    s_prox_a s
    = vadd (mat_vec (s_R s) aJ)
           (vadd (cross (s_prox_w s) (cross (s_prox_w s) r_prox))
                 (cross (s_prox_wd s) r_prox))
    /\ s_dist_a s
       = vadd aJ (vadd (cross (s_dist_w s) (cross (s_dist_w s) r_dist))
                       (cross (s_dist_wd s) r_dist)).

(** The same sample with the roles of the two sensors exchanged. *)
Definition swap_sensors (s : sample F) : sample F :=
  {| s_prox_a := s_dist_a s; s_dist_a := s_prox_a s;
     s_prox_w := s_dist_w s; s_dist_w := s_prox_w s;
     s_prox_wd := s_dist_wd s; s_dist_wd := s_prox_wd s;
     s_R := s_R s |}.

(** The proximal sensor turns about the fixed axis [u]: its angular
    velocity and angular acceleration are multiples of [u]. *)
Definition about_axis (u : vec3 F) (s : sample F) : Prop :=
  exists c d : F, s_prox_w s = vscale c u /\ s_prox_wd s = vscale d u.
End Spec.

(** ** Closed examples: scalars, solvers and trials *)

Module Examples.

(** The Euclidean norm of a row in binary64. *)
Definition float_norm (v : vec3 float) : float :=
  PrimFloat.sqrt (vx v * vx v + vy v * vy v + vz v * vz v)%float.

(** On a vector along one axis the Euclidean norm is the sum of the
    absolute values; this is the norm of the examples in exact
    arithmetic, whose vectors are all of that kind. *)
Definition axis_norm (v : vec3 Qc) : Qc :=
  (Qcabs (vx v) + Qcabs (vy v) + Qcabs (vz v))%Qc.

(** A row [(0, 0, z)]. *)
Definition along_z {F} `{Scalar F} (z : Q) : vec3 F := V3 s0 s0 (lit z).

Definition identity3 {F} `{Scalar F} : mat3 F :=
  M3 (V3 s1 s0 s0) (V3 s0 s1 s0) (V3 s0 s0 s1).

Definition centre {F} `{Scalar F} (m : string) (masking : bool) (n : Z)
  : Center F unit :=
  {| g := lit (981 # 100); method := m; mask_input := masking;
     min_samples := n; opt_kwargs := tt |}.

Definition sum_sq {F} `{Scalar F} (l : list F) : F :=
  foldr (fun x acc => sadd (smul x x) acc) s0 l.

(** A linear solver for the examples: it proposes the null vector, whose
    sum of squared residuals is that of [b], and reports residuals under
    numpy's rule (more rows than columns, full rank). *)
Definition null_lstsq {F} `{Scalar F} (A b : list (list F))
  : outcome (LstsqResult F) :=
  if (6 <? length A)%nat
  then Returned (replicate 6 [s0], [sum_sq (concat b)], 6%Z, [])
  else Returned (replicate 6 [s0], [], 0%Z, []).

(** A nonlinear solver for the examples: it stops at the initial guess
    and reports half the sum of squares there as its cost. *)
Definition null_least_squares {F} `{Scalar F}
    (fn : list F -> Args F -> outcome (list F)) (x0 : list F)
    (args : Args F) (kw : unit) : outcome (OptimizeResult F) :=
  e ← fn x0 args;
  Returned {| sol_x := x0; sol_cost := smul (lit (1 # 2)) (sum_sq e) |}.

(** A sample whose sensors read accelerations [zp] and [zd] along the z
    axis while turning at 1 rad/s about it, frames aligned. *)
Definition spinning {F} `{Scalar F} (zp zd : Q) : sample F :=
  {| s_prox_a := along_z zp; s_dist_a := along_z zd;
     s_prox_w := V3 s0 s0 s1; s_dist_w := V3 s0 s0 s1;
     s_prox_wd := V3 s0 s0 s0; s_dist_wd := V3 s0 s0 s0;
     s_R := identity3 |}.

(** Three samples in motion (dynamic accelerations 1.19 and 1.69) and one
    at rest. *)
Definition trial4 {F} `{Scalar F} : list (sample F) :=
  [spinning (1100 # 100) (1150 # 100); spinning (981 # 100) (981 # 100);
   spinning (1100 # 100) (1150 # 100); spinning (1100 # 100) (1150 # 100)].

(** Samples whose dynamic acceleration, 0.12, lies between the ladder's
    last two steps above the floor (0.15 and 0.10). *)
Definition gentle1 {F} `{Scalar F} : list (vec3 F) := [along_z (993 # 100)].
Definition gentle3 {F} `{Scalar F} : list (vec3 F) :=
  [along_z (993 # 100); along_z (981 # 100); along_z (993 # 100)].


(** A sample of a joint turning at 1 rad/s about z: the centre has
    acceleration (0, 0, 9.81), the proximal sensor sits at offset
    (0.1, 0, 0) and the distal one at (-0.2, 0, 0), frames aligned. *)
Definition orbiting {F} `{Scalar F} : sample F :=
  {| s_prox_a := V3 (lit (-1 # 10)) s0 (lit (981 # 100));
     s_dist_a := V3 (lit (2 # 10)) s0 (lit (981 # 100));
     s_prox_w := V3 s0 s0 s1; s_dist_w := V3 s0 s0 s1;
     s_prox_wd := V3 s0 s0 s0; s_dist_wd := V3 s0 s0 s0;
     s_R := identity3 |}.

(** A sample at rest: no rotation at all. *)
Definition resting {F} `{Scalar F} (zp zd : Q) : sample F :=
  {| s_prox_a := along_z zp; s_dist_a := along_z zd;
     s_prox_w := V3 s0 s0 s0; s_dist_w := V3 s0 s0 s0;
     s_prox_wd := V3 s0 s0 s0; s_dist_wd := V3 s0 s0 s0;
     s_R := identity3 |}.

End Examples.

(** * Properties *)

(** ** Array primitives *)

Lemma mask_sum_replicate_false (n : nat) : mask_sum (replicate n false) = 0%Z.
Proof. induction n as [|n IH]; simpl; [reflexivity | exact IH]. Qed.

Lemma mask_sum_replicate_true (n : nat) : mask_sum (replicate n true) = Z.of_nat n.
Proof. induction n as [|n IH]; simpl mask_sum; [reflexivity | rewrite IH; lia]. Qed.

Lemma mask_sum_nonneg (mask : list bool) : (0 <= mask_sum mask)%Z.
Proof. induction mask as [|[] mask IH]; simpl; lia. Qed.

Lemma mask_sum_le_length (mask : list bool) : (mask_sum mask <= Z.of_nat (length mask))%Z.
Proof. induction mask as [|[] mask IH]; simpl mask_sum; simpl length; lia. Qed.

Lemma length_select {A} (mask : list bool) (arr : list A) :
  length mask = length arr -> Z.of_nat (length (select mask arr)) = mask_sum mask.
Proof.
  revert arr; induction mask as [|b mask IH]; intros [|a arr] Hlen;
    simpl in Hlen; try discriminate; [reflexivity|].
  injection Hlen as Hlen. specialize (IH arr Hlen).
  destruct b; simpl select; simpl mask_sum; simpl length; lia.
Qed.

Lemma select_all {A} (arr : list A) : select (replicate (length arr) true) arr = arr.
Proof. induction arr as [|a arr IH]; simpl; [reflexivity | now rewrite IH]. Qed.

Lemma bool_index_Returned {A} (mask : list bool) (arr : list A) :
  length mask = length arr -> bool_index mask arr = Returned (select mask arr).
Proof. intros Hlen. unfold bool_index. now rewrite decide_True. Qed.

Lemma broadcast2_same_length {A B C} (f : A -> B -> C) (u : list A) (v : list B) :
  length u = length v -> broadcast2 f u v = Returned (zip_with f u v).
Proof. intros Hlen. unfold broadcast2. now rewrite decide_True. Qed.

Lemma broadcast2_not_OutOfFuel {A B C} (f : A -> B -> C) (u : list A) (v : list B) :
  broadcast2 f u v <> OutOfFuel.
Proof.
  unfold broadcast2. destruct (decide _); [discriminate|].
  destruct u as [|a [|a' u]], v as [|b [|b' v]]; discriminate.
Qed.

(** ** The masking loop, for any scalar type *)

Section MaskLoop.
Context {F : Type} `{Scalar F}.
Variables (min_n : Z) (prox_an dist_an : list F).
Hypothesis same_N : length prox_an = length dist_an.

Lemma logical_and_above (t : F) :
  logical_and (above t prox_an) (above t dist_an)
  = Returned (mask_at t prox_an dist_an).
Proof using same_N.
  apply broadcast2_same_length. unfold above. now rewrite !length_map.
Qed.

(** One unfolding of the loop when the current mask is too small. *)
Lemma mask_loop_body (fuel : nat) (mask : list bool) (t : F) :
  (mask_sum mask < min_n)%Z ->
  mask_loop (S fuel) min_n prox_an dist_an mask t
  = if below_floor (lower t) then Raised ValueError_motion
    else mask_loop fuel min_n prox_an dist_an (mask_at t prox_an dist_an) (lower t).
Proof using same_N.
  intros Hlt. simpl mask_loop.
  destruct (Z.ltb_spec (mask_sum mask) min_n) as [_|Hge]; [|lia].
  rewrite logical_and_above. reflexivity.
Qed.

Lemma mask_loop_exit (fuel : nat) (mask : list bool) (t : F) :
  (min_n <= mask_sum mask)%Z ->
  mask_loop fuel min_n prox_an dist_an mask t = Returned mask.
Proof.
  clear same_N. intros Hge. destruct fuel; simpl;
    destruct (Z.ltb_spec (mask_sum mask) min_n); (lia || reflexivity).
Qed.

(** After [k] insufficient steps that did not cross the floor, the loop
    is at step [k]: it computes the mask at the [k]-th threshold below
    [t], lowers the threshold, and tests the floor. *)
Lemma mask_loop_steps (k : nat) : forall (fuel : nat) (mask : list bool) (t : F),
  (mask_sum mask < min_n)%Z ->
  (forall j, (j < k)%nat ->
     (mask_sum (mask_at (Nat.iter j lower t) prox_an dist_an) < min_n)%Z
     /\ below_floor (Nat.iter (S j) lower t) = false) ->
  mask_loop (S k + fuel) min_n prox_an dist_an mask t
  = if below_floor (Nat.iter (S k) lower t) then Raised ValueError_motion
    else mask_loop fuel min_n prox_an dist_an
           (mask_at (Nat.iter k lower t) prox_an dist_an) (Nat.iter (S k) lower t).
Proof using same_N.
  induction k as [|k IH]; intros fuel mask t Hlt Hsteps.
  - simpl Nat.iter. simpl Nat.add. now apply mask_loop_body.
  - change (S (S k) + fuel)%nat with (S (S k + fuel)).
    rewrite mask_loop_body by assumption.
    destruct (Hsteps 0%nat ltac:(lia)) as [Hcount Hfloor]. simpl in Hcount, Hfloor.
    rewrite Hfloor.
    rewrite IH; [| assumption |].
    + rewrite <- !Nat.iter_succ_r. reflexivity.
    + intros j Hj. rewrite <- !Nat.iter_succ_r. apply Hsteps. lia.
Qed.
End MaskLoop.

(** A mask that the loop returns holds at least [min_n] samples. *)
Lemma mask_loop_enough {F : Type} `{Scalar F} (fuel : nat) (min_n : Z)
    (prox_an dist_an : list F) :
  forall (mask : list bool) (t : F) (m : list bool),
    mask_loop fuel min_n prox_an dist_an mask t = Returned m ->
    (min_n <= mask_sum m)%Z.
Proof.
  induction fuel as [|fuel IH]; intros mask t m; simpl mask_loop;
    destruct (Z.ltb_spec (mask_sum mask) min_n) as [Hlt|Hge];
    try discriminate; try (intros [= <-]; assumption).
  destruct (logical_and _ _) as [mask'| |]; simpl; try discriminate.
  destruct (sltb _ _); [discriminate|]. apply IH.
Qed.

(** The loop raises for insufficient motion or, when the two arrays differ
    in length and cannot be broadcast, for their shapes. *)
Lemma mask_loop_raised {F : Type} `{Scalar F} (fuel : nat) (min_n : Z)
    (prox_an dist_an : list F) :
  forall (mask : list bool) (t : F) (e : exn),
    mask_loop fuel min_n prox_an dist_an mask t = Raised e ->
    e = ValueError_motion
    \/ (e = ValueError_broadcast /\ length prox_an <> length dist_an).
Proof.
  induction fuel as [|fuel IH]; intros mask t e; simpl mask_loop;
    destruct (mask_sum mask <? min_n)%Z; try discriminate.
  destruct (logical_and _ _) as [mask'|e'|] eqn:Hand; simpl; try discriminate.
  - destruct (sltb _ _); [intros [= <-]; now left | apply IH].
  - intros [= <-]. right. unfold logical_and, broadcast2, above in Hand.
    rewrite !length_map in Hand.
    destruct (decide (length prox_an = length dist_an)); [discriminate|].
    split; [|assumption].
    destruct (map _ prox_an) as [|? [|? ?]], (map _ dist_an) as [|? [|? ?]];
      congruence.
Qed.

(** More fuel does not change a result that was reached. *)
Lemma mask_loop_fuel_mono {F : Type} `{Scalar F} (fuel : nat) (min_n : Z)
    (prox_an dist_an : list F) :
  forall (extra : nat) (mask : list bool) (t : F),
    mask_loop fuel min_n prox_an dist_an mask t <> OutOfFuel ->
    mask_loop (fuel + extra) min_n prox_an dist_an mask t
    = mask_loop fuel min_n prox_an dist_an mask t.
Proof.
  induction fuel as [|fuel IH]; intros extra mask t.
  - simpl mask_loop at 1 3. destruct (mask_sum mask <? min_n)%Z eqn:Hlt;
      [congruence|]. intros _.
    destruct extra; simpl; now rewrite Hlt.
  - change (S fuel + extra)%nat with (S (fuel + extra)). cbn [mask_loop].
    destruct (mask_sum mask <? min_n)%Z; [|reflexivity].
    destruct (logical_and _ _) as [mask'| |]; simpl; try reflexivity.
    destruct (sltb _ _); [reflexivity|]. apply IH.
Qed.

(** The loop cannot run past a threshold that is below the floor: if the
    threshold [n + 1] steps below [t] has crossed it, [n + 1] iterations
    are enough, whatever the data. *)
Lemma mask_loop_bounded {F : Type} `{Scalar F} (min_n : Z) (prox_an dist_an : list F)
    (n : nat) :
  forall (extra : nat) (mask : list bool) (t : F),
    below_floor (Nat.iter (S n) lower t) = true ->
    mask_loop (S n + extra) min_n prox_an dist_an mask t <> OutOfFuel
    /\ mask_loop (S n + extra) min_n prox_an dist_an mask t
       = mask_loop (S n) min_n prox_an dist_an mask t.
Proof.
  induction n as [|n IH]; intros extra mask t Hfloor.
  - simpl Nat.iter in Hfloor. simpl mask_loop.
    destruct (mask_sum mask <? min_n)%Z; [|split; [discriminate | reflexivity]].
    destruct (logical_and _ _) as [mask'| |] eqn:Hand; simpl.
    + fold (lower t). fold (below_floor (lower t)). rewrite Hfloor.
      split; [discriminate | reflexivity].
    + split; [discriminate | reflexivity].
    + now apply broadcast2_not_OutOfFuel in Hand.
  - rewrite Nat.iter_succ_r in Hfloor.
    change (S (S n) + extra)%nat with (S (S n + extra)).
    cbn [mask_loop].
    destruct (mask_sum mask <? min_n)%Z; [|split; [discriminate | reflexivity]].
    destruct (logical_and _ _) as [mask'| |] eqn:Hand; simpl.
    + destruct (sltb _ _); [split; [discriminate | reflexivity]|].
      apply IH. exact Hfloor.
    + split; [discriminate | reflexivity].
    + now apply broadcast2_not_OutOfFuel in Hand.
Qed.

(** ** The ladder in binary64 and in exact arithmetic *)

Lemma float_literals :
  lit (F := float) (8 # 10) = 0x1.999999999999ap-1%float
  /\ lit (F := float) (5 # 100) = 0x1.999999999999ap-5%float
  /\ lit (F := float) (9 # 100) = 0x1.70a3d70a3d70ap-4%float.
Proof. repeat split; vm_compute; reflexivity. Qed.

Lemma bounded_forall (n : nat) (P : nat -> bool) :
  forallb P (seq 0 (S n)) = true -> forall j, (j <= n)%nat -> P j = true.
Proof.
  intros Hall j Hj. rewrite forallb_forall in Hall. apply Hall.
  apply in_seq. lia.
Qed.

(** Step 14 (0.1 up to rounding) is the last one above the floor, in both
    arithmetics. *)
Lemma float_ladder : last_step_above_floor (F := float) 14.
Proof.
  split; [|vm_compute; reflexivity].
  intros j Hj.
  apply (bounded_forall 14 (fun j => negb (below_floor (ladder (F := float) j))))
    in Hj; [|vm_compute; reflexivity].
  now apply negb_true_iff in Hj.
Qed.

Lemma Qc_ladder : last_step_above_floor (F := Qc) 14.
Proof.
  split; [|vm_compute; reflexivity].
  intros j Hj.
  apply (bounded_forall 14 (fun j => negb (below_floor (ladder (F := Qc) j))))
    in Hj; [|vm_compute; reflexivity].
  now apply negb_true_iff in Hj.
Qed.

(** ** What the selection does, given where the ladder meets the floor *)

Section SelectMask.
Context {F : Type} `{Scalar F} {Kw : Type}.
Variable norm : vec3 F -> F.
Variable last : nat.
Hypothesis ladder_shape : last_step_above_floor (F := F) last.
Variables (self : Center F Kw) (prox_a dist_a : list (vec3 F)).

(** The loop is over after [last + 1] iterations, for every input. *)
Lemma select_mask_bounded (extra : nat) :
  select_mask norm (S last + extra) self prox_a dist_a <> OutOfFuel
  /\ select_mask norm (S last + extra) self prox_a dist_a
     = select_mask norm (S last) self prox_a dist_a.
Proof using ladder_shape.
  unfold select_mask. destruct (mask_input self); [|split; [discriminate | reflexivity]].
  apply mask_loop_bounded. apply ladder_shape.
Qed.

(** What the selection can end in. *)
Lemma select_mask_outcome :
  match select_mask norm (S last) self prox_a dist_a with
  | Returned m => mask_input self = false \/ (min_samples self <= mask_sum m)%Z
  | Raised e => e = ValueError_motion
                \/ (e = ValueError_broadcast /\ length prox_a <> length dist_a)
  | OutOfFuel => False
  end.
Proof using ladder_shape.
  destruct (select_mask_bounded 0) as [Hfuel _]. rewrite Nat.add_0_r in Hfuel.
  destruct (select_mask norm (S last) self prox_a dist_a) as [m|e|] eqn:Hsel;
    [| |congruence]; unfold select_mask in Hsel; destruct (mask_input self);
    try discriminate; try (now left).
  - right. now apply mask_loop_enough in Hsel.
  - apply mask_loop_raised in Hsel. unfold dyn_accel in Hsel.
    now rewrite !length_map in Hsel.
Qed.

Hypothesis masking : mask_input self = true.
Hypothesis same_N : length prox_a = length dist_a.
Hypothesis positive : (0 < min_samples self)%Z.

(** The first sufficient step is returned, provided it is not the last
    step above the floor. *)
Lemma select_mask_first (k extra : nat) :
  (k < last)%nat ->
  (forall j, (j < k)%nat ->
     (count_at j (dyn_accel norm (g self) prox_a) (dyn_accel norm (g self) dist_a)
      < min_samples self)%Z) ->
  (min_samples self
   <= count_at k (dyn_accel norm (g self) prox_a) (dyn_accel norm (g self) dist_a))%Z ->
  select_mask norm (S k + extra) self prox_a dist_a
  = Returned (mask_at (ladder k) (dyn_accel norm (g self) prox_a)
                (dyn_accel norm (g self) dist_a)).
Proof using ladder_shape masking same_N positive.
  intros Hk Hbefore Hat. destruct ladder_shape as [Habove _].
  unfold select_mask. rewrite masking.
  rewrite mask_loop_steps.
  - fold (ladder (F := F) (S k)). rewrite Habove by lia.
    now apply mask_loop_exit.
  - unfold dyn_accel. now rewrite !length_map.
  - rewrite mask_sum_replicate_false. exact positive.
  - intros j Hj. split; [now apply Hbefore|].
    fold (ladder (F := F) (S j)). apply Habove. lia.
Qed.

(** When no step before the last one is sufficient, the call raises,
    whatever the last step's mask holds. *)
Lemma select_mask_raises (extra : nat) :
  (forall j, (j < last)%nat ->
     (count_at j (dyn_accel norm (g self) prox_a) (dyn_accel norm (g self) dist_a)
      < min_samples self)%Z) ->
  select_mask norm (S last + extra) self prox_a dist_a = Raised ValueError_motion.
Proof using ladder_shape masking same_N positive.
  intros Hbefore. destruct ladder_shape as [Habove Hbelow].
  unfold select_mask. rewrite masking.
  rewrite mask_loop_steps.
  - fold (ladder (F := F) (S last)). now rewrite Hbelow.
  - unfold dyn_accel. now rewrite !length_map.
  - rewrite mask_sum_replicate_false. exact positive.
  - intros j Hj. split; [now apply Hbefore|].
    fold (ladder (F := F) (S j)). apply Habove. lia.
Qed.
End SelectMask.

(** A returned mask is never smaller than requested. *)
Lemma select_mask_enough {F : Type} `{Scalar F} {Kw : Type} (norm : vec3 F -> F)
    (fuel : nat) (self : Center F Kw) (prox_a dist_a : list (vec3 F)) (m : list bool) :
  mask_input self = true ->
  select_mask norm fuel self prox_a dist_a = Returned m ->
  (min_samples self <= mask_sum m)%Z.
Proof.
  unfold select_mask. intros ->. apply mask_loop_enough.
Qed.

(** Without masking every sample is retained. *)
Lemma select_mask_disabled {F : Type} `{Scalar F} {Kw : Type} (norm : vec3 F -> F)
    (fuel : nat) (self : Center F Kw) (prox_a dist_a : list (vec3 F)) :
  mask_input self = false ->
  exists m, select_mask norm fuel self prox_a dist_a = Returned m
            /\ mask_sum m = Z.of_nat (length prox_a)
            /\ select m prox_a = prox_a.
Proof.
  unfold select_mask. intros ->. eexists. split; [reflexivity|].
  split; [apply mask_sum_replicate_true | apply select_all].
Qed.

(** The selection in binary64, on arrays of equal length and a positive
    [min_samples]: the first sufficient step among steps 0 to 13 is
    returned; if none of them is sufficient the call raises. *)
Corollary select_mask_binary64 {Kw : Type} (norm : vec3 float -> float)
    (self : Center float Kw) (prox_a dist_a : list (vec3 float)) (extra : nat) :
  mask_input self = true ->
  length prox_a = length dist_a ->
  (0 < min_samples self)%Z ->
  (forall k : nat,
     (k < 14)%nat ->
     (forall j, (j < k)%nat ->
        (count_at j (dyn_accel norm (g self) prox_a) (dyn_accel norm (g self) dist_a)
         < min_samples self)%Z) ->
     (min_samples self
      <= count_at k (dyn_accel norm (g self) prox_a) (dyn_accel norm (g self) dist_a))%Z ->
     select_mask norm (15 + extra) self prox_a dist_a
     = Returned (mask_at (ladder k) (dyn_accel norm (g self) prox_a)
                   (dyn_accel norm (g self) dist_a)))
  /\ ((forall j, (j < 14)%nat ->
         (count_at j (dyn_accel norm (g self) prox_a) (dyn_accel norm (g self) dist_a)
          < min_samples self)%Z) ->
      select_mask norm (15 + extra) self prox_a dist_a = Raised ValueError_motion).
Proof.
  intros Hmask Hsame Hpos. split.
  - intros k Hk Hbefore Hat.
    replace (15 + extra)%nat with (S k + (14 - k + extra))%nat by lia.
    now apply (select_mask_first norm 14 float_ladder).
  - intros Hnone. now apply (select_mask_raises norm 14 float_ladder).
Qed.

(** C7: the adaptive masking loop terminates on every input (any arrays,
    any configuration), in binary64 and in exact arithmetic alike: fifteen
    executions of its body always suffice, more fuel does not change the
    result, and by then the selection has returned a mask that is large
    enough or has raised (for insufficient motion; for the shapes only if
    the two arrays differ in length).  Fifteen is the ceiling of
    (0.8 - 0.09) / 0.05. *)
Theorem masking_loop_at_most_15_steps :
  (forall (Kw : Type) (norm : vec3 float -> float) (self : Center float Kw)
          (prox_a dist_a : list (vec3 float)) (extra : nat),
      select_mask norm (15 + extra) self prox_a dist_a
      = select_mask norm 15 self prox_a dist_a
      /\ match select_mask norm 15 self prox_a dist_a with
         | Returned m => mask_input self = false \/ (min_samples self <= mask_sum m)%Z
         | Raised e => e = ValueError_motion
                       \/ (e = ValueError_broadcast /\ length prox_a <> length dist_a)
         | OutOfFuel => False
         end)
  /\ (forall (Kw : Type) (norm : vec3 Qc -> Qc) (self : Center Qc Kw)
             (prox_a dist_a : list (vec3 Qc)) (extra : nat),
      select_mask norm (15 + extra) self prox_a dist_a
      = select_mask norm 15 self prox_a dist_a
      /\ match select_mask norm 15 self prox_a dist_a with
         | Returned m => mask_input self = false \/ (min_samples self <= mask_sum m)%Z
         | Raised e => e = ValueError_motion
                       \/ (e = ValueError_broadcast /\ length prox_a <> length dist_a)
         | OutOfFuel => False
         end)
  /\ Qceiling (((8 # 10) - (9 # 100)) / (5 # 100)) = 15%Z.
Proof.
  split; [|split].
  - intros. split.
    + apply (select_mask_bounded norm 14 float_ladder).
    + apply (select_mask_outcome norm 14 float_ladder).
  - intros. split.
    + apply (select_mask_bounded norm 14 Qc_ladder).
    + apply (select_mask_outcome norm 14 Qc_ladder).
  - vm_compute. reflexivity.
Qed.

(** The bound is attained: a trial that needs all fifteen steps. *)
Lemma fifteenth_step_is_reached :
  select_mask (Kw := unit) Examples.float_norm 14 (Examples.centre "SAC" true 1)
    Examples.gentle1 Examples.gentle1 = OutOfFuel
  /\ select_mask (Kw := unit) Examples.float_norm 15 (Examples.centre "SAC" true 1)
       Examples.gentle1 Examples.gentle1 = Raised ValueError_motion.
Proof. split; vm_compute; reflexivity. Qed.

(** ** The last ladder step above the floor *)

(** C1: a trial whose first sufficient ladder step is the last one above
    the floor.  One sample, dynamic acceleration 0.12 on both sensors,
    [min_samples = 1]: steps 0 to 13 (0.8 down to 0.15) retain nothing,
    step 14 (0.1, not below the floor 0.09) retains the sample, and
    [compute] raises instead of returning that mask.  The same happens in
    exact arithmetic, so rounding plays no part. *)
Theorem sufficient_last_step_raises :
  let an := dyn_accel Examples.float_norm (lit (981 # 100)) Examples.gentle1 in
  let an' := dyn_accel Examples.axis_norm (lit (981 # 100)) Examples.gentle1 in
  below_floor (ladder (F := float) 14) = false
  /\ map (fun k => count_at k an an) (seq 0 15)
     = [0; 0; 0; 0; 0; 0; 0; 0; 0; 0; 0; 0; 0; 0; 1]%Z
  /\ mask_at (ladder 14) an an = [true]
  /\ (forall lstsq least_squares prox_w dist_w prox_wd dist_wd R_dist_prox extra,
       compute Examples.float_norm lstsq least_squares (15 + extra)
         (Examples.centre "SAC" true 1) Examples.gentle1 Examples.gentle1
         prox_w dist_w prox_wd dist_wd R_dist_prox
       = Raised ValueError_motion)
  /\ below_floor (ladder (F := Qc) 14) = false
  /\ map (fun k => count_at k an' an') (seq 0 15)
     = [0; 0; 0; 0; 0; 0; 0; 0; 0; 0; 0; 0; 0; 0; 1]%Z
  /\ (forall lstsq least_squares prox_w dist_w prox_wd dist_wd R_dist_prox extra,
       compute Examples.axis_norm lstsq least_squares (15 + extra)
         (Examples.centre "SAC" true 1) Examples.gentle1 Examples.gentle1
         prox_w dist_w prox_wd dist_wd R_dist_prox
       = Raised ValueError_motion).
Proof.
  split; [vm_compute; reflexivity|].
  split; [vm_compute; reflexivity|].
  split; [vm_compute; reflexivity|].
  split.
  { intros. unfold compute. rewrite decide_True by reflexivity.
    destruct (select_mask_bounded Examples.float_norm 14 float_ladder
                (Examples.centre "SAC" true 1) Examples.gentle1 Examples.gentle1 extra)
      as [_ ->].
    reflexivity. }
  split; [vm_compute; reflexivity|].
  split; [vm_compute; reflexivity|].
  intros. unfold compute. rewrite decide_True by reflexivity.
  destruct (select_mask_bounded Examples.axis_norm 14 Qc_ladder
              (Examples.centre "SAC" true 1) Examples.gentle1 Examples.gentle1 extra)
    as [_ ->].
  assert (Hsel : select_mask (Kw := unit) Examples.axis_norm 15
                   (Examples.centre "SAC" true 1) Examples.gentle1 Examples.gentle1
                 = Raised ValueError_motion) by (vm_compute; reflexivity).
  rewrite Hsel. reflexivity.
Qed.

(** C2: the error is raised although a ladder step above the floor yields
    enough samples.  Three samples, two of them with dynamic acceleration
    0.12, [min_samples = 2], method SSFC: step 14 retains two samples, yet
    [compute] raises the insufficient-motion error. *)
Theorem raises_although_a_step_suffices :
  let an := dyn_accel Examples.float_norm (lit (981 # 100)) Examples.gentle3 in
  below_floor (ladder (F := float) 14) = false
  /\ count_at 14 an an = 2%Z
  /\ forall lstsq least_squares prox_w dist_w prox_wd dist_wd R_dist_prox extra,
       compute Examples.float_norm lstsq least_squares (15 + extra)
         (Examples.centre "SSFC" true 2) Examples.gentle3 Examples.gentle3
         prox_w dist_w prox_wd dist_wd R_dist_prox
       = Raised ValueError_motion.
Proof.
  split; [vm_compute; reflexivity|].
  split; [vm_compute; reflexivity|].
  intros. unfold compute.
  rewrite decide_False by discriminate. rewrite decide_True by reflexivity.
  destruct (select_mask_bounded Examples.float_norm 14 float_ladder
              (Examples.centre "SSFC" true 2) Examples.gentle3 Examples.gentle3 extra)
    as [_ ->].
  reflexivity.
Qed.

(** ** The skew operator, in exact arithmetic *)

Lemma select_map {A B} (f : A -> B) (mask : list bool) (l : list A) :
  select mask (map f l) = map f (select mask l).
Proof.
  revert l; induction mask as [|b mask IH]; intros [|a l]; simpl; try reflexivity.
  destruct b; simpl; now rewrite IH.
Qed.

Section Exact.
Context {F : Type} `{Scalar F}.
Hypothesis Fring : ring_theory s0 s1 sadd smul ssub sopp (@eq F).
Add Ring Fring_ring : Fring.
Local Open Scope scalar_scope.

(** The operator of section 4.2 is the double cross product. *)
Lemma skew_K_cross (w wd r : vec3 F) :
  mat_vec (skew_K w wd) r = vadd (cross w (cross w r)) (cross wd r).
Proof using Fring.
  destruct w as [wx wy wz], wd as [dx dy dz], r as [rx ry rz].
  unfold mat_vec, skew_K, vadd, cross, dot3; simpl. f_equal; ring.
Qed.

(** The transported acceleration of [compute_distance_residuals]. *)
Lemma transported_sample (a w wd r : vec3 F) :
  vsub (vsub a (cross w (cross w r))) (cross wd r)
  = vsub a (mat_vec (skew_K w wd) r).
Proof using Fring.
  rewrite skew_K_cross.
  destruct a as [ax ay az], w as [wx wy wz], wd as [dx dy dz], r as [rx ry rz].
  unfold vsub, vadd, cross; simpl. f_equal; ring.
Qed.

(** The vectorised construction of lines 94-112, one sample at a time:
    the entries are those the program text spells out. *)
Lemma skew_products_cons (v d : vec3 F) (w wd : list (vec3 F)) :
  skew_products (v :: w) (d :: wd)
  = M3 (V3 (- (vy v * vy v) - vz v * vz v)
           (vx v * vy v - vz d)
           (vy d + vx v * vz v))
       (V3 (vz d + vx v * vy v)
           (- (vx v * vx v) - vz v * vz v)
           (vy v * vz v - vx d))
       (V3 (vx v * vz v - vy d)
           (vx d + vy v * vz v)
           (- (vx v * vx v) - vy v * vy v))
    :: skew_products w wd.
Proof. reflexivity. Qed.

(** It yields, sample by sample, the operator of section 4.2. *)
Lemma skew_products_K : forall (w wd : list (vec3 F)),
  skew_products w wd = zip_with skew_K w wd.
Proof using Fring.
  induction w as [|v w IH]; intros [|d wd]; try reflexivity.
  rewrite skew_products_cons, IH. simpl zip_with. f_equal.
  unfold skew_K. repeat f_equal; ring.
Qed.

(** The worked example of section 8: rotation about the z axis. *)
Lemma skew_K_rotation_about_z :
  mat_vec (skew_K (V3 s0 s0 s1) (V3 s0 s0 s0)) (V3 (lit (1 # 10)) s0 s0)
  = V3 (- lit (1 # 10)) s0 s0.
Proof using Fring.
  unfold mat_vec, skew_K, dot3; simpl. f_equal; ring.
Qed.

(** [(-R) @ K] is [-(R @ K)]. *)
Lemma mat_mul_opp (R K : mat3 F) : mat_mul (mat_opp R) K = mat_opp (mat_mul R K).
Proof using Fring.
  destruct R as [[a b c] [d e f] [g h i]], K as [[k1 k2 k3] [k4 k5 k6] [k7 k8 k9]].
  unfold mat_mul, mat_opp, vopp, dot3, mat_col0, mat_col1, mat_col2; simpl.
  repeat f_equal; ring.
Qed.
End Exact.

(** C3: in exact arithmetic (any scalars obeying the ring laws), the matrix
    that the code builds for sample [i] from [w[i]] and [wd[i]] satisfies
    K r = w x (w x r) + wd x r for every offset r, so the transported
    acceleration a - w x (w x r) - wd x r of the SSFC residual is a - K r;
    and for w = (0, 0, 1), wd = 0, r = (0.1, 0, 0) the product K r is
    (-0.1, 0, 0). *)
Theorem skew_matrix_is_double_cross {F : Type} `{Scalar F}
    (Fring : ring_theory s0 s1 sadd smul ssub sopp (@eq F)) :
  (forall (w wd : list (vec3 F)) (i : nat) (wi wdi : vec3 F),
     w !! i = Some wi -> wd !! i = Some wdi ->
     exists K : mat3 F,
       skew_products w wd !! i = Some K
       /\ forall a r : vec3 F,
            mat_vec K r = vadd (cross wi (cross wi r)) (cross wdi r)
            /\ vsub (vsub a (cross wi (cross wi r))) (cross wdi r)
               = vsub a (mat_vec K r))
  /\ map (fun K => mat_vec K (V3 (lit (1 # 10)) s0 s0))
         (skew_products [V3 s0 s0 s1] [V3 s0 s0 s0])
     = [V3 (sopp (lit (1 # 10))) s0 s0].
Proof.
  split.
  - intros w wd i wi wdi Hw Hwd. exists (skew_K wi wdi). split.
    + rewrite (skew_products_K Fring), lookup_zip_with, Hw, Hwd. reflexivity.
    + intros a r. split.
      * apply (skew_K_cross Fring).
      * apply (transported_sample Fring).
  - rewrite (skew_products_K Fring). simpl. f_equal.
    apply (skew_K_rotation_about_z Fring).
Qed.

(** A closed instance in exact rational arithmetic. *)
Lemma skew_matrix_is_double_cross_witness :
  exists K : mat3 Qc,
    skew_products [V3 s0 s0 s1; V3 s1 s0 s1] [V3 s0 s0 s0; V3 s0 s1 s0] !! 1%nat = Some K
    /\ forall a r : vec3 Qc,
         mat_vec K r = vadd (cross (V3 s1 s0 s1) (cross (V3 s1 s0 s1) r))
                            (cross (V3 s0 s1 s0) r)
         /\ vsub (vsub a (cross (V3 s1 s0 s1) (cross (V3 s1 s0 s1) r)))
                 (cross (V3 s0 s1 s0) r)
            = vsub a (mat_vec K r).
Proof.
  destruct (skew_matrix_is_double_cross (H := Qc_scalar) Qcrt) as [Hsample _].
  apply (Hsample [V3 s0 s0 s1; V3 s1 s0 s1] [V3 s0 s0 s0; V3 s0 s1 s0] 1%nat);
    reflexivity.
Defined.

(** The worked example evaluated in binary64. *)
Lemma skew_example_binary64 :
  map (fun K => mat_vec K (V3 (lit (1 # 10)) s0 s0))
      (skew_products (F := float) [V3 s0 s0 s1] [V3 s0 s0 s0])
  = [V3 (-0x1.999999999999ap-4)%float 0%float 0%float].
Proof. vm_compute. reflexivity. Qed.

(** ** Shapes *)

Lemma mask_loop_length {F : Type} `{Scalar F} (fuel : nat) (min_n : Z)
    (prox_an dist_an : list F) :
  length prox_an = length dist_an ->
  forall (mask : list bool) (t : F) (m : list bool),
    length mask = length prox_an ->
    mask_loop fuel min_n prox_an dist_an mask t = Returned m ->
    length m = length prox_an.
Proof.
  intros Hsame. induction fuel as [|fuel IH]; intros mask t m Hlen; simpl mask_loop;
    destruct (mask_sum mask <? min_n)%Z; try discriminate;
    try (intros [= <-]; assumption).
  rewrite logical_and_above by assumption. simpl.
  destruct (sltb _ _); [discriminate|]. apply IH.
  unfold mask_at, above. rewrite length_zip_with, !length_map. lia.
Qed.

(** The mask has one entry per sample. *)
Lemma select_mask_length {F : Type} `{Scalar F} {Kw : Type} (norm : vec3 F -> F)
    (fuel : nat) (self : Center F Kw) (prox_a dist_a : list (vec3 F)) (m : list bool) :
  length prox_a = length dist_a ->
  select_mask norm fuel self prox_a dist_a = Returned m ->
  length m = length prox_a.
Proof.
  intros Hsame. unfold select_mask. destruct (mask_input self).
  - intros Hloop. apply mask_loop_length in Hloop.
    + now rewrite Hloop; unfold dyn_accel; rewrite length_map.
    + unfold dyn_accel. now rewrite !length_map.
    + now rewrite length_replicate.
  - intros [= <-]. apply length_replicate.
Qed.

Lemma length_resize6 {F : Type} `{Scalar F} (r : list (list F)) :
  length (resize6 r) = 6%nat.
Proof.
  unfold resize6. rewrite length_take, length_app, length_replicate. lia.
Qed.

(** After [resize], [r[3:]] is [r[3:6]]; a solution of six entries is kept
    as it is. *)
Lemma resize6_split {F : Type} `{Scalar F} (r : list (list F)) :
  drop 3 (resize6 r) = take 3 (drop 3 (resize6 r))
  /\ (length (concat r) = 6%nat -> resize6 r = concat r).
Proof.
  split.
  - symmetry. apply take_ge. rewrite length_drop, length_resize6. lia.
  - intros Hlen. unfold resize6.
    rewrite take_app_le by lia. apply take_ge. lia.
Qed.

Lemma length_skew_products {F : Type} `{Scalar F} : forall (w wd : list (vec3 F)),
  length w = length wd -> length (skew_products w wd) = length w.
Proof.
  induction w as [|v w IH]; intros [|d wd] Hlen; try discriminate; [reflexivity|].
  change (skew_products (v :: w) (d :: wd)) with
    (hd (M3 v v v) (skew_products (v :: w) (d :: wd)) :: skew_products w wd).
  simpl length. f_equal. apply IH. now injection Hlen.
Qed.

Lemma length_sac_A {F : Type} `{Scalar F} : forall (K L R : list (mat3 F)),
  length K = length L -> length R = length L ->
  length (sac_A K L R) = (3 * length K)%nat.
Proof.
  unfold sac_A.
  induction K as [|k K IH]; intros [|l L] [|r R] HK HR; try discriminate; [reflexivity|].
  simpl. do 3 f_equal. simpl in IH. rewrite IH by (simpl in *; lia). lia.
Qed.

(** ** Method SAC assembles the stacked system of section 4.3 *)

Section ExactSAC.
Context {F : Type} `{Scalar F}.
Hypothesis Fring : ring_theory s0 s1 sadd smul ssub sopp (@eq F).

Lemma sac_A_stack (kept : list (sample F)) :
  sac_A (skew_products (map s_prox_w kept) (map s_prox_wd kept))
        (skew_products (map s_dist_w kept) (map s_dist_wd kept))
        (map s_R kept)
  = stack sac_block kept.
Proof using Fring.
  rewrite !(skew_products_K Fring). unfold sac_A, stack.
  induction kept as [|s kept IH]; [reflexivity|].
  cbn [map zip_with concat]. rewrite IH. unfold sac_block.
  now rewrite (mat_mul_opp Fring).
Qed.

Lemma sac_b_stack (kept : list (sample F)) :
  sac_b (map s_prox_a kept) (map s_dist_a kept) (map s_R kept)
  = stack sac_rhs kept.
Proof.
  unfold sac_b, stack.
  induction kept as [|s kept IH]; [reflexivity|].
  cbn [map zip_with concat]. now rewrite IH.
Qed.

Lemma sac_system_trial (mask : list bool) (trial : list (sample F)) :
  length mask = length trial ->
  sac_system mask (map s_prox_a trial) (map s_dist_a trial)
    (map s_prox_w trial) (map s_dist_w trial)
    (map s_prox_wd trial) (map s_dist_wd trial) (map s_R trial)
  = Returned (stack sac_block (select mask trial), stack sac_rhs (select mask trial)).
Proof using Fring.
  intros Hlen. unfold sac_system.
  rewrite !bool_index_Returned by now rewrite length_map.
  simpl. rewrite !select_map, sac_A_stack, sac_b_stack. reflexivity.
Qed.
End ExactSAC.

Lemma length_stack_block {F : Type} `{Scalar F} (kept : list (sample F)) :
  length (stack sac_block kept) = (3 * length kept)%nat
  /\ Forall (fun row => length row = 6%nat) (stack sac_block kept)
  /\ length (stack sac_rhs kept) = (3 * length kept)%nat
  /\ Forall (fun row => length row = 1%nat) (stack sac_rhs kept).
Proof.
  unfold stack. induction kept as [|s kept (IH1 & IH2 & IH3 & IH4)].
  - repeat split; constructor.
  - simpl. repeat split.
    + simpl in IH1. rewrite IH1. lia.
    + repeat (constructor; [reflexivity|]). exact IH2.
    + simpl in IH3. rewrite IH3. lia.
    + repeat (constructor; [reflexivity|]). exact IH4.
Qed.

(** The program's boolean indexing keeps the samples at which the mask
    holds True. *)
Lemma select_retained {A} (mask : list bool) (trial : list A) :
  select mask trial = retained mask trial.
Proof.
  unfold retained. revert trial.
  induction mask as [|m mask IH]; intros [|x trial]; try reflexivity.
  cbn [select zip zip_with]. rewrite filter_cons. destruct m.
  - rewrite decide_True by reflexivity. cbn [map snd]. now rewrite IH.
  - rewrite decide_False by discriminate. apply IH.
Qed.

(** The blocks built with the program's helpers are the blocks written out
    entry by entry. *)
Lemma stack_entries {F : Type} `{Scalar F} (kept : list (sample F)) :
  stack sac_block kept = concat (map sac_block_entries kept)
  /\ stack sac_rhs kept = concat (map sac_rhs_entries kept).
Proof. split; reflexivity. Qed.

(** C4: method SAC, in exact arithmetic, on a trial of aligned samples of
    which the mask retains M.  [compute] calls the linear least-squares
    solver on the matrix A of 3M rows and 6 columns whose block for a
    retained sample is [K_prox | - R K_dist], and on the vector b of 3M rows
    whose block is a_prox - R a_dist (both written out entry by entry in
    [sac_block_entries] and [sac_rhs_entries]).  When the solver returns
    the solution r = (x0, ..., x5) as a 6x1 array together with a residual,
    [compute] returns r_prox = (x0, x1, x2) and r_dist = (x3, x4, x5), and
    the first residual over M; when the residual array is empty it raises
    IndexError, and an error of the solver is passed on. *)
Theorem sac_solves_stacked_system {F : Type} `{Scalar F} {Kw : Type}
    (Fring : ring_theory s0 s1 sadd smul ssub sopp (@eq F))
    (norm : vec3 F -> F)
    (lstsq : list (list F) -> list (list F) -> outcome (LstsqResult F))
    (least_squares : (list F -> Args F -> outcome (list F)) -> list F ->
                     Args F -> Kw -> outcome (OptimizeResult F))
    (fuel : nat) (self : Center F Kw) (trial : list (sample F)) (mask : list bool) :
  method self = "SAC" ->
  select_mask norm fuel self (map s_prox_a trial) (map s_dist_a trial) = Returned mask ->
  let kept := retained mask trial in
  let A := concat (map sac_block_entries kept) in
  let b := concat (map sac_rhs_entries kept) in
  let result :=
    compute norm lstsq least_squares fuel self
      (map s_prox_a trial) (map s_dist_a trial) (map s_prox_w trial)
      (map s_dist_w trial) (map s_prox_wd trial) (map s_dist_wd trial)
      (map s_R trial) in
  length A = (3 * length kept)%nat
  /\ Forall (fun row => length row = 6%nat) A
  /\ length b = (3 * length kept)%nat
  /\ Forall (fun row => length row = 1%nat) b
  /\ (forall (x0 x1 x2 x3 x4 x5 first : F) (rest : list F) (rank : Z) (sv : list F),
        lstsq A b
        = Returned ([[x0]; [x1]; [x2]; [x3]; [x4]; [x5]], first :: rest, rank, sv) ->
        result = Returned ([x0; x1; x2], [x3; x4; x5],
                           sdiv first (of_int (Z.of_nat (length kept)))))
  /\ (forall (x : list (list F)) (rank : Z) (sv : list F),
        lstsq A b = Returned (x, [], rank, sv) -> result = Raised IndexError)
  /\ (forall e : exn, lstsq A b = Raised e -> result = Raised e).
Proof.
  intros Hmethod Hmask kept A b result.
  assert (Hlen : length mask = length trial).
  { apply select_mask_length in Hmask; rewrite !length_map in *; [assumption|reflexivity]. }
  assert (Hresult : result
    = ('(x, residual, _, _) ← lstsq A b;
       first ← index0 residual;
       Returned (take 3 (resize6 x), drop 3 (resize6 x),
                 sdiv first (of_int (Z.of_nat (length kept)))))).
  { unfold result, compute. rewrite decide_True by assumption. rewrite Hmask.
    cbn [mbind outcome_bind obind].
    rewrite (sac_system_trial Fring) by assumption. cbn [mbind outcome_bind obind].
    rewrite <- (length_select mask trial Hlen), !select_retained.
    destruct (stack_entries (retained mask trial)) as [-> ->]. fold kept A b.
    destruct (lstsq A b) as [[[[x residual] rank] sv]| |]; reflexivity. }
  destruct (length_stack_block kept) as (HA & HA6 & Hb & Hb1).
  destruct (stack_entries kept) as [EA Eb]. rewrite EA in HA, HA6. rewrite Eb in Hb, Hb1.
  repeat (split; [assumption|]).
  split; [|split].
  - intros x0 x1 x2 x3 x4 x5 first rest rank sv Hsol. rewrite Hresult, Hsol. reflexivity.
  - intros x rank sv Hsol. rewrite Hresult, Hsol. reflexivity.
  - intros e Hsol. rewrite Hresult, Hsol. reflexivity.
Qed.

(** A closed instance: exact rationals, the trial of four samples, of which
    the mask keeps the first, third and fourth; the solver of the examples
    proposes the null vector, with the sum of the squares of b as residual. *)
Lemma sac_solves_stacked_system_witness :
  retained [true; false; true; true] (Examples.trial4 (F := Qc))
  = [Examples.spinning (1100 # 100) (1150 # 100);
     Examples.spinning (1100 # 100) (1150 # 100);
     Examples.spinning (1100 # 100) (1150 # 100)]
  /\ compute Examples.axis_norm Examples.null_lstsq Examples.null_least_squares 15
       (Examples.centre "SAC" true 3)
       (map s_prox_a Examples.trial4) (map s_dist_a Examples.trial4)
       (map s_prox_w Examples.trial4) (map s_dist_w Examples.trial4)
       (map s_prox_wd Examples.trial4) (map s_dist_wd Examples.trial4)
       (map s_R Examples.trial4)
     = Returned ([s0; s0; s0], [s0; s0; s0],
                 sdiv (Examples.sum_sq
                         (concat (concat (map sac_rhs_entries
                            (retained [true; false; true; true]
                               (Examples.trial4 (F := Qc)))))))
                      (of_int 3)).
Proof.
  split; [reflexivity|].
  refine (proj1 (proj2 (proj2 (proj2 (proj2
    (sac_solves_stacked_system (H := Qc_scalar) Qcrt Examples.axis_norm
       Examples.null_lstsq Examples.null_least_squares 15
       (Examples.centre "SAC" true 3) Examples.trial4 [true; false; true; true]
       _ _))))) s0 s0 s0 s0 s0 s0 _ [] 6%Z [] _).
  - reflexivity.
  - vm_compute. reflexivity.
  - reflexivity.
Defined.

(** ** Method SSFC *)

Lemma zip_with_map_map {A B C D} (f : B -> C -> D) (g : A -> B) (h : A -> C)
    (l : list A) :
  zip_with f (map g l) (map h l) = map (fun x => f (g x) (h x)) l.
Proof. induction l as [|a l IH]; simpl; [reflexivity | now rewrite IH]. Qed.


Section ExactSSFC.
Context {F : Type} `{Scalar F}.
Hypothesis Fring : ring_theory s0 s1 sadd smul ssub sopp (@eq F).
Variable norm : vec3 F -> F.

(** One sensor's transported accelerations over the retained samples. *)
Lemma transported_trial {A} (acc w wd : A -> vec3 F) (kept : list A) (r : vec3 F) :
  transported (map acc kept) (map w kept) (map wd kept) [vx r; vy r; vz r]
  = Returned (map (fun s => vsub (acc s) (mat_vec (skew_K (w s) (wd s)) r)) kept).
Proof using Fring.
  unfold transported. cbn [cross_with mbind outcome_bind obind].
  rewrite !map_map, broadcast2_same_length by now rewrite !length_map.
  cbn [mbind outcome_bind obind].
  rewrite zip_with_map_map, broadcast2_same_length by now rewrite !length_map.
  cbn [mbind outcome_bind obind].
  rewrite zip_with_map_map, broadcast2_same_length by now rewrite !length_map.
  rewrite zip_with_map_map. f_equal. apply map_ext. intros s.
  destruct r as [rx ry rz]. apply (transported_sample Fring).
Qed.

(** The residual function computes the residual of section 4.4. *)
Lemma compute_distance_residuals_trial (kept : list (sample F)) (r_prox r_dist : vec3 F) :
  compute_distance_residuals norm
    [vx r_prox; vy r_prox; vz r_prox; vx r_dist; vy r_dist; vz r_dist]
    (args_of kept)
  = Returned (map (ssfc_residual norm r_prox r_dist) kept).
Proof using Fring.
  unfold compute_distance_residuals, args_of. cbn [take drop].
  rewrite !transported_trial. cbn [mbind outcome_bind obind].
  rewrite !map_map, broadcast2_same_length by now rewrite !length_map.
  now rewrite zip_with_map_map.
Qed.
End ExactSSFC.



(** ** The returned residual *)

Lemma bool_index_inv {A} (mask : list bool) (arr sel : list A) :
  bool_index mask arr = Returned sel ->
  length mask = length arr /\ sel = select mask arr.
Proof.
  unfold bool_index. destruct (decide _) as [Hlen|]; [|discriminate].
  intros [= <-]. now split.
Qed.

Lemma sac_system_inv {F : Type} `{Scalar F} (mask : list bool)
    (prox_a dist_a prox_w dist_w prox_wd dist_wd : list (vec3 F))
    (R_dist_prox : list (mat3 F)) (A b : list (list F)) :
  sac_system mask prox_a dist_a prox_w dist_w prox_wd dist_wd R_dist_prox
  = Returned (A, b) ->
  length mask = length prox_a
  /\ Z.of_nat (length A) = (3 * mask_sum mask)%Z.
Proof.
  unfold sac_system.
  destruct (bool_index mask prox_w) as [pw| |] eqn:Epw; try discriminate.
  destruct (bool_index mask prox_wd) as [pwd| |] eqn:Epwd; try discriminate.
  destruct (bool_index mask dist_w) as [dw| |] eqn:Edw; try discriminate.
  destruct (bool_index mask dist_wd) as [dwd| |] eqn:Edwd; try discriminate.
  destruct (bool_index mask R_dist_prox) as [Rm| |] eqn:ERm; try discriminate.
  destruct (bool_index mask prox_a) as [pa| |] eqn:Epa; try discriminate.
  destruct (bool_index mask dist_a) as [da| |] eqn:Eda; try discriminate.
  cbn [mbind outcome_bind obind]. intros [= <- <-].
  apply bool_index_inv in Epw as [Lpw ->], Epwd as [Lpwd ->], Edw as [Ldw ->],
    Edwd as [Ldwd ->], ERm as [LRm ->], Epa as [Lpa _].
  split; [assumption|].
  pose proof (length_select mask prox_w Lpw) as Mpw.
  pose proof (length_select mask prox_wd Lpwd) as Mpwd.
  pose proof (length_select mask dist_w Ldw) as Mdw.
  pose proof (length_select mask dist_wd Ldwd) as Mdwd.
  pose proof (length_select mask R_dist_prox LRm) as MRm.
  rewrite length_sac_A; rewrite ?length_skew_products; lia.
Qed.

Lemma ssfc_args_inv {F : Type} `{Scalar F} (mask : list bool)
    (prox_a dist_a prox_w dist_w prox_wd dist_wd : list (vec3 F)) (args : Args F) :
  ssfc_args mask prox_a dist_a prox_w dist_w prox_wd dist_wd = Returned args ->
  length mask = length prox_a.
Proof.
  unfold ssfc_args.
  destruct (bool_index mask prox_a) as [pa| |] eqn:Epa; try discriminate.
  intros _. now apply bool_index_inv in Epa.
Qed.

(** C6: whenever [compute] returns, with either method, the residual it
    returns is the solver's figure (SAC: the first entry of the
    least-squares residuals; SSFC: the final cost) divided by the number of
    samples the mask retains, which is [mask.sum()], whatever the total
    number of samples. *)
Theorem residual_divided_by_retained_count {F : Type} `{Scalar F} {Kw : Type}
    (norm : vec3 F -> F)
    (lstsq : list (list F) -> list (list F) -> outcome (LstsqResult F))
    (least_squares : (list F -> Args F -> outcome (list F)) -> list F ->
                     Args F -> Kw -> outcome (OptimizeResult F))
    (fuel : nat) (self : Center F Kw)
    (prox_a dist_a prox_w dist_w prox_wd dist_wd : list (vec3 F))
    (R_dist_prox : list (mat3 F)) (r_prox r_dist : list F) (residual : F) :
  compute norm lstsq least_squares fuel self
    prox_a dist_a prox_w dist_w prox_wd dist_wd R_dist_prox
  = Returned (r_prox, r_dist, residual) ->
  exists (mask : list bool) (numerator : F),
    select_mask norm fuel self prox_a dist_a = Returned mask
    /\ length mask = length prox_a
    /\ mask_sum mask = Z.of_nat (length (select mask prox_a))
    /\ residual = sdiv numerator (of_int (mask_sum mask))
    /\ ((method self = "SAC"
         /\ exists A b x rest rank sv,
              sac_system mask prox_a dist_a prox_w dist_w prox_wd dist_wd R_dist_prox
              = Returned (A, b)
              /\ lstsq A b = Returned (x, numerator :: rest, rank, sv))
        \/ (method self = "SSFC"
            /\ exists args sol,
                 ssfc_args mask prox_a dist_a prox_w dist_w prox_wd dist_wd
                 = Returned args
                 /\ least_squares (compute_distance_residuals norm) (replicate 6 s0)
                      args (opt_kwargs self) = Returned sol
                 /\ numerator = sol_cost sol)).
Proof.
  unfold compute. destruct (decide (method self = "SAC")) as [Hsac|Hnsac].
  - destruct (select_mask _ _ _ _ _) as [mask| |]; try discriminate.
    cbn [mbind outcome_bind obind].
    destruct (sac_system _ _ _ _ _ _ _ _) as [[A b]| |] eqn:Esys; try discriminate.
    cbn [mbind outcome_bind obind].
    destruct (lstsq A b) as [[[[x res] rank] sv]| |] eqn:Esol; try discriminate.
    cbn [mbind outcome_bind obind].
    destruct res as [|first rest]; [discriminate|]. simpl. intros [= _ _ <-].
    destruct (sac_system_inv _ _ _ _ _ _ _ _ _ _ Esys) as [Hlen _].
    exists mask, first. repeat split; try assumption.
    + symmetry. now apply length_select.
    + left. split; [assumption|]. now exists A, b, x, rest, rank, sv.
  - destruct (decide (method self = "SSFC")) as [Hssfc|]; [|discriminate].
    destruct (select_mask _ _ _ _ _) as [mask| |]; try discriminate.
    cbn [mbind outcome_bind obind].
    destruct (ssfc_args _ _ _ _ _ _ _) as [args| |] eqn:Eargs; try discriminate.
    cbn [mbind outcome_bind obind].
    destruct (least_squares _ _ _ _) as [sol| |] eqn:Esol; try discriminate.
    simpl. intros [= _ _ <-].
    pose proof (ssfc_args_inv _ _ _ _ _ _ _ _ Eargs) as Hlen.
    exists mask, (sol_cost sol). repeat split; try assumption.
    + symmetry. now apply length_select.
    + right. split; [assumption|]. now exists args, sol.
Qed.

(** A closed instance in binary64: four samples, three retained.  The
    solver of the examples reports 0.75, and the residual returned is 0.25, which
    is 0.75 / 3 and not 0.75 / 4. *)
Lemma residual_divided_by_retained_count_witness :
  compute Examples.float_norm Examples.null_lstsq Examples.null_least_squares 15
    (Examples.centre "SAC" true 3)
    (map s_prox_a Examples.trial4) (map s_dist_a Examples.trial4)
    (map s_prox_w Examples.trial4) (map s_dist_w Examples.trial4)
    (map s_prox_wd Examples.trial4) (map s_dist_wd Examples.trial4)
    (map s_R Examples.trial4)
  = Returned ([0; 0; 0]%float, [0; 0; 0]%float, 0.25%float)
  /\ exists (mask : list bool) (numerator : float),
       select_mask Examples.float_norm 15 (Examples.centre "SAC" true 3)
         (map s_prox_a Examples.trial4) (map s_dist_a Examples.trial4)
       = Returned mask
       /\ length mask = 4%nat
       /\ mask_sum mask = 3%Z
       /\ 0.25%float = sdiv numerator (of_int (mask_sum mask)).
Proof.
  assert (Hrun :
    compute Examples.float_norm Examples.null_lstsq Examples.null_least_squares 15
      (Examples.centre "SAC" true 3)
      (map s_prox_a Examples.trial4) (map s_dist_a Examples.trial4)
      (map s_prox_w Examples.trial4) (map s_dist_w Examples.trial4)
      (map s_prox_wd Examples.trial4) (map s_dist_wd Examples.trial4)
      (map s_R Examples.trial4)
    = Returned ([0; 0; 0]%float, [0; 0; 0]%float, 0.25%float))
    by (vm_compute; reflexivity).
  split; [exact Hrun|].
  destruct (residual_divided_by_retained_count _ _ _ _ _ _ _ _ _ _ _ _ _ _ _ Hrun)
    as (mask & numerator & Hmask & Hlen & Hsum & Hres & _).
  exists mask, numerator. repeat split; try assumption.
  rewrite Hsum.
  assert (Hm : mask = [true; false; true; true]).
  { assert (Hm' : select_mask Examples.float_norm 15 (Examples.centre "SAC" true 3)
         (map s_prox_a Examples.trial4) (map s_dist_a Examples.trial4)
       = Returned [true; false; true; true]) by (vm_compute; reflexivity).
    rewrite Hm' in Hmask. now injection Hmask. }
  subst mask. reflexivity.
Defined.

(** ** Dispatch on the method *)

(** C8: with method SSFC the result does not depend on [R_dist_prox]: two
    calls that differ only in that argument (of any length and content)
    give the same outcome, hence the same triple when they return. *)
Theorem ssfc_ignores_rotation {F : Type} `{Scalar F} {Kw : Type}
    (norm : vec3 F -> F)
    (lstsq : list (list F) -> list (list F) -> outcome (LstsqResult F))
    (least_squares : (list F -> Args F -> outcome (list F)) -> list F ->
                     Args F -> Kw -> outcome (OptimizeResult F))
    (fuel : nat) (self : Center F Kw)
    (prox_a dist_a prox_w dist_w prox_wd dist_wd : list (vec3 F))
    (R R' : list (mat3 F)) :
  method self = "SSFC" ->
  compute norm lstsq least_squares fuel self
    prox_a dist_a prox_w dist_w prox_wd dist_wd R
  = compute norm lstsq least_squares fuel self
      prox_a dist_a prox_w dist_w prox_wd dist_wd R'.
Proof.
  intros Hmethod. unfold compute. rewrite Hmethod.
  rewrite decide_False by discriminate. reflexivity.
Qed.

(** A closed instance in binary64: the rotations of the trial against no
    rotations at all. *)
Lemma ssfc_ignores_rotation_witness :
  compute Examples.float_norm Examples.null_lstsq Examples.null_least_squares 15
    (Examples.centre "SSFC" true 3)
    (map s_prox_a Examples.trial4) (map s_dist_a Examples.trial4)
    (map s_prox_w Examples.trial4) (map s_dist_w Examples.trial4)
    (map s_prox_wd Examples.trial4) (map s_dist_wd Examples.trial4)
    (map s_R Examples.trial4)
  = compute Examples.float_norm Examples.null_lstsq Examples.null_least_squares 15
      (Examples.centre "SSFC" true 3)
      (map s_prox_a Examples.trial4) (map s_dist_a Examples.trial4)
      (map s_prox_w Examples.trial4) (map s_dist_w Examples.trial4)
      (map s_prox_wd Examples.trial4) (map s_dist_wd Examples.trial4)
      [].
Proof.
  apply ssfc_ignores_rotation. reflexivity.
Defined.

(** C9: for every method other than 'SAC' and 'SSFC' (the documented
    'SSFCv' among them) [compute] raises, on every input: neither branch
    binds [r], and the [return] statement reads it. *)
Theorem unknown_method_raises {F : Type} `{Scalar F} {Kw : Type}
    (norm : vec3 F -> F)
    (lstsq : list (list F) -> list (list F) -> outcome (LstsqResult F))
    (least_squares : (list F -> Args F -> outcome (list F)) -> list F ->
                     Args F -> Kw -> outcome (OptimizeResult F))
    (fuel : nat) (self : Center F Kw)
    (prox_a dist_a prox_w dist_w prox_wd dist_wd : list (vec3 F))
    (R_dist_prox : list (mat3 F)) :
  method self <> "SAC" -> method self <> "SSFC" ->
  compute norm lstsq least_squares fuel self
    prox_a dist_a prox_w dist_w prox_wd dist_wd R_dist_prox
  = Raised UnboundLocalError.
Proof.
  intros Hsac Hssfc. unfold compute. now rewrite !decide_False by assumption.
Qed.

(** A closed instance: the documented method 'SSFCv'. *)
Lemma unknown_method_raises_witness :
  compute Examples.float_norm Examples.null_lstsq Examples.null_least_squares 15
    (Examples.centre "SSFCv" true 3)
    (map s_prox_a Examples.trial4) (map s_dist_a Examples.trial4)
    (map s_prox_w Examples.trial4) (map s_dist_w Examples.trial4)
    (map s_prox_wd Examples.trial4) (map s_dist_wd Examples.trial4)
    (map s_R Examples.trial4)
  = Raised UnboundLocalError.
Proof.
  apply unknown_method_raises; discriminate.
Defined.

(** ** The residual array of the linear solver *)

(** The solver of the examples reports residuals under numpy's rule. *)
Lemma null_lstsq_residuals {F : Type} `{Scalar F}
    (A b x : list (list F)) (residual : list F) (rank : Z) (sv : list F) :
  Examples.null_lstsq A b = Returned (x, residual, rank, sv) ->
  residual <> [] <-> (6 < length A)%nat /\ rank = 6%Z.
Proof.
  unfold Examples.null_lstsq. destruct (Nat.ltb_spec 6 (length A)) as [Hlt|Hge].
  - intros [= <- <- <- <-]. split; [intros _; now split | discriminate].
  - intros [= <- <- <- <-]. split; [congruence | intros [Hlt _]; lia].
Qed.

(** C10: method SAC, with a linear solver that reports a non-empty residual
    array exactly when the system has more rows than its six columns and
    rank six (numpy's rule).  The system has 3M rows; [compute] returns a
    residual only if 3M > 6 and the rank is 6, in which case it is the
    solver's first residual over M; otherwise reading [residual[0]] raises
    IndexError. *)
Theorem sac_residual_needs_overdetermined_full_rank {F : Type} `{Scalar F} {Kw : Type}
    (norm : vec3 F -> F)
    (lstsq : list (list F) -> list (list F) -> outcome (LstsqResult F))
    (least_squares : (list F -> Args F -> outcome (list F)) -> list F ->
                     Args F -> Kw -> outcome (OptimizeResult F))
    (lstsq_residuals : forall A b x residual rank sv,
        lstsq A b = Returned (x, residual, rank, sv) ->
        residual <> [] <-> (6 < length A)%nat /\ rank = 6%Z)
    (fuel : nat) (self : Center F Kw)
    (prox_a dist_a prox_w dist_w prox_wd dist_wd : list (vec3 F))
    (R_dist_prox : list (mat3 F)) (mask : list bool)
    (A b x : list (list F)) (residual : list F) (rank : Z) (sv : list F) :
  method self = "SAC" ->
  select_mask norm fuel self prox_a dist_a = Returned mask ->
  sac_system mask prox_a dist_a prox_w dist_w prox_wd dist_wd R_dist_prox
  = Returned (A, b) ->
  lstsq A b = Returned (x, residual, rank, sv) ->
  let M := mask_sum mask in
  let result := compute norm lstsq least_squares fuel self
                  prox_a dist_a prox_w dist_w prox_wd dist_wd R_dist_prox in
  Z.of_nat (length A) = (3 * M)%Z
  /\ (forall t, result = Returned t -> (6 < 3 * M)%Z /\ rank = 6%Z)
  /\ ((6 < 3 * M)%Z /\ rank = 6%Z ->
      exists first rest,
        residual = first :: rest
        /\ result = Returned (take 3 (resize6 x), drop 3 (resize6 x),
                              sdiv first (of_int M)))
  /\ (~ ((6 < 3 * M)%Z /\ rank = 6%Z) -> result = Raised IndexError).
Proof.
  intros Hmethod Hmask Hsys Hsol M result.
  destruct (sac_system_inv _ _ _ _ _ _ _ _ _ _ Hsys) as [_ Hrows].
  assert (Hresult : result
    = (first ← index0 residual;
       Returned (take 3 (resize6 x), drop 3 (resize6 x), sdiv first (of_int M)))).
  { unfold result, compute. rewrite decide_True by assumption.
    rewrite Hmask. cbn [mbind outcome_bind obind].
    rewrite Hsys. cbn [mbind outcome_bind obind]. rewrite Hsol. reflexivity. }
  pose proof (lstsq_residuals _ _ _ _ _ _ Hsol) as Hrule.
  assert (Hiff : (6 < length A)%nat /\ rank = 6%Z <-> (6 < 3 * M)%Z /\ rank = 6%Z)
    by (split; intros [? ?]; split; (assumption || lia)).
  rewrite Hiff in Hrule. clear Hiff.
  split; [exact Hrows|]. rewrite Hresult. destruct residual as [|first rest].
  - split; [discriminate|]. split.
    + intros Hok. apply Hrule in Hok. congruence.
    + reflexivity.
  - assert (Hok : (6 < 3 * M)%Z /\ rank = 6%Z) by (apply Hrule; discriminate).
    split; [intros _ _; exact Hok|]. split.
    + intros _. now exists first, rest.
    + intros Hnot. now destruct Hnot.
Qed.

(** A closed instance in binary64: three retained samples give nine rows,
    and the call returns. *)
Lemma sac_residual_needs_overdetermined_full_rank_witness :
  compute Examples.float_norm Examples.null_lstsq Examples.null_least_squares 15
    (Examples.centre "SAC" true 3)
    (map s_prox_a Examples.trial4) (map s_dist_a Examples.trial4)
    (map s_prox_w Examples.trial4) (map s_dist_w Examples.trial4)
    (map s_prox_wd Examples.trial4) (map s_dist_wd Examples.trial4)
    (map s_R Examples.trial4)
  = Returned ([0; 0; 0]%float, [0; 0; 0]%float, 0.25%float)
  /\ (6 < 3 * mask_sum [true; false; true; true])%Z.
Proof.
  assert (Hrun :
    compute Examples.float_norm Examples.null_lstsq Examples.null_least_squares 15
      (Examples.centre "SAC" true 3)
      (map s_prox_a Examples.trial4) (map s_dist_a Examples.trial4)
      (map s_prox_w Examples.trial4) (map s_dist_w Examples.trial4)
      (map s_prox_wd Examples.trial4) (map s_dist_wd Examples.trial4)
      (map s_R Examples.trial4)
    = Returned ([0; 0; 0]%float, [0; 0; 0]%float, 0.25%float))
    by (vm_compute; reflexivity).
  split; [exact Hrun|].
  assert (Hmask :
    select_mask Examples.float_norm 15 (Examples.centre "SAC" true 3)
      (map s_prox_a Examples.trial4) (map s_dist_a Examples.trial4)
    = Returned [true; false; true; true]) by (vm_compute; reflexivity).
  destruct (sac_system [true; false; true; true]
              (map s_prox_a Examples.trial4) (map s_dist_a Examples.trial4)
              (map s_prox_w Examples.trial4) (map s_dist_w Examples.trial4)
              (map s_prox_wd Examples.trial4) (map s_dist_wd Examples.trial4)
              (map s_R (Examples.trial4 (F := float))))
    as [[A b]| |] eqn:Hsys; [|vm_compute in Hsys; discriminate..].
  destruct (Examples.null_lstsq A b) as [[[[x residual] rank] sv]| |] eqn:Hsol;
    [|unfold Examples.null_lstsq in Hsol; destruct (6 <? length A)%nat; discriminate..].
  destruct (sac_residual_needs_overdetermined_full_rank
              Examples.float_norm Examples.null_lstsq Examples.null_least_squares
              null_lstsq_residuals 15 (Examples.centre "SAC" true 3)
              _ _ _ _ _ _ _ _ A b x residual rank sv eq_refl Hmask Hsys Hsol)
    as (_ & Honly & _).
  exact (proj1 (Honly _ Hrun)).
Defined.

(** * Further properties of the selection *)

(** A call that returns went through a mask with one entry per sample. *)
Lemma compute_Returned_mask {F : Type} `{Scalar F} {Kw : Type}
    (norm : vec3 F -> F)
    (lstsq : list (list F) -> list (list F) -> outcome (LstsqResult F))
    (least_squares : (list F -> Args F -> outcome (list F)) -> list F ->
                     Args F -> Kw -> outcome (OptimizeResult F))
    (fuel : nat) (self : Center F Kw)
    (prox_a dist_a prox_w dist_w prox_wd dist_wd : list (vec3 F))
    (R_dist_prox : list (mat3 F)) (t : list F * list F * F) :
  compute norm lstsq least_squares fuel self
    prox_a dist_a prox_w dist_w prox_wd dist_wd R_dist_prox = Returned t ->
  exists mask, select_mask norm fuel self prox_a dist_a = Returned mask
               /\ length mask = length prox_a.
Proof.
  unfold compute. destruct (decide (method self = "SAC")).
  - destruct (select_mask _ _ _ _ _) as [mask| |]; try discriminate.
    cbn [mbind outcome_bind obind].
    destruct (sac_system _ _ _ _ _ _ _ _) as [[A b]| |] eqn:Esys; try discriminate.
    intros _. exists mask. split; [reflexivity|].
    now destruct (sac_system_inv _ _ _ _ _ _ _ _ _ _ Esys).
  - destruct (decide (method self = "SSFC")); [|discriminate].
    destruct (select_mask _ _ _ _ _) as [mask| |]; try discriminate.
    cbn [mbind outcome_bind obind].
    destruct (ssfc_args _ _ _ _ _ _ _) as [args| |] eqn:Eargs; try discriminate.
    intros _. exists mask. split; [reflexivity|].
    now apply ssfc_args_inv in Eargs.
Qed.

(** X1: whenever [compute] returns with masking enabled, the mask it used
    has one entry per sample and retains at least [min_samples] and at most
    N samples. *)
Theorem returned_mask_count_bounds {F : Type} `{Scalar F} {Kw : Type}
    (norm : vec3 F -> F)
    (lstsq : list (list F) -> list (list F) -> outcome (LstsqResult F))
    (least_squares : (list F -> Args F -> outcome (list F)) -> list F ->
                     Args F -> Kw -> outcome (OptimizeResult F))
    (fuel : nat) (self : Center F Kw)
    (prox_a dist_a prox_w dist_w prox_wd dist_wd : list (vec3 F))
    (R_dist_prox : list (mat3 F)) (t : list F * list F * F) :
  mask_input self = true ->
  compute norm lstsq least_squares fuel self
    prox_a dist_a prox_w dist_w prox_wd dist_wd R_dist_prox = Returned t ->
  exists mask,
    select_mask norm fuel self prox_a dist_a = Returned mask
    /\ length mask = length prox_a
    /\ (min_samples self <= mask_sum mask <= Z.of_nat (length prox_a))%Z.
Proof.
  intros Hmasking Hrun.
  destruct (compute_Returned_mask _ _ _ _ _ _ _ _ _ _ _ _ _ Hrun) as (mask & Hmask & Hlen).
  exists mask. split; [assumption|]. split; [assumption|]. split.
  - now apply (select_mask_enough norm fuel self prox_a dist_a).
  - rewrite <- Hlen. apply mask_sum_le_length.
Qed.

(** A closed instance in binary64: three of four samples retained, with
    [min_samples = 3]. *)
Lemma returned_mask_count_bounds_witness :
  exists mask,
    select_mask Examples.float_norm 15 (Examples.centre "SSFC" true 3)
      (map s_prox_a Examples.trial4) (map s_dist_a Examples.trial4) = Returned mask
    /\ length mask = 4%nat
    /\ (3 <= mask_sum mask <= 4)%Z.
Proof.
  destruct (Examples.null_least_squares
              (compute_distance_residuals Examples.float_norm) (replicate 6 s0)
              (args_of (select [true; false; true; true] (Examples.trial4 (F := float))))
              tt) as [sol| |] eqn:Hsol; [|vm_compute in Hsol; discriminate..].
  apply (returned_mask_count_bounds Examples.float_norm Examples.null_lstsq
           Examples.null_least_squares 15 (Examples.centre "SSFC" true 3)
           (map s_prox_a Examples.trial4) (map s_dist_a Examples.trial4)
           (map s_prox_w Examples.trial4) (map s_dist_w Examples.trial4)
           (map s_prox_wd Examples.trial4) (map s_dist_wd Examples.trial4)
           (map s_R Examples.trial4)
           (take 3 (sol_x sol), drop 3 (sol_x sol), sdiv (sol_cost sol) (of_int 3)));
    [reflexivity|].
  vm_compute in Hsol. injection Hsol as <-. vm_compute. reflexivity.
Defined.

Lemma length_mask_at {F : Type} `{Scalar F} (t : F) (prox_an dist_an : list F) :
  length prox_an = length dist_an ->
  length (mask_at t prox_an dist_an) = length prox_an.
Proof.
  intros Hlen. unfold mask_at, above. rewrite length_zip_with, !length_map. lia.
Qed.

(** In binary64 no threshold can retain more samples than there are. *)
Lemma select_mask_short_trial {Kw : Type} (norm : vec3 float -> float)
    (extra : nat) (self : Center float Kw) (prox_a dist_a : list (vec3 float)) :
  mask_input self = true ->
  length prox_a = length dist_a ->
  (Z.of_nat (length prox_a) < min_samples self)%Z ->
  select_mask norm (15 + extra) self prox_a dist_a = Raised ValueError_motion.
Proof.
  intros Hmasking Hsame Hshort.
  apply (select_mask_raises norm 14 float_ladder); try assumption; [lia|].
  intros j _. unfold count_at.
  pose proof (mask_sum_le_length
                (mask_at (ladder j) (dyn_accel norm (g self) prox_a)
                   (dyn_accel norm (g self) dist_a))) as Hle.
  rewrite length_mask_at in Hle by (unfold dyn_accel; now rewrite !length_map).
  unfold dyn_accel in Hle at 3. rewrite length_map in Hle. lia.
Qed.

(** X2: in binary64, with masking enabled and two acceleration arrays of N
    rows each, a [min_samples] larger than N makes [compute] raise the
    insufficient-motion error, with either method and whatever the data and
    the solvers. *)
Theorem too_few_samples_always_raises {Kw : Type}
    (norm : vec3 float -> float)
    (lstsq : list (list float) -> list (list float) -> outcome (LstsqResult float))
    (least_squares : (list float -> Args float -> outcome (list float)) ->
                     list float -> Args float -> Kw -> outcome (OptimizeResult float))
    (extra : nat) (self : Center float Kw)
    (prox_a dist_a prox_w dist_w prox_wd dist_wd : list (vec3 float))
    (R_dist_prox : list (mat3 float)) :
  mask_input self = true ->
  method self = "SAC" \/ method self = "SSFC" ->
  length prox_a = length dist_a ->
  (Z.of_nat (length prox_a) < min_samples self)%Z ->
  compute norm lstsq least_squares (15 + extra) self
    prox_a dist_a prox_w dist_w prox_wd dist_wd R_dist_prox
  = Raised ValueError_motion.
Proof.
  intros Hmasking Hmethod Hsame Hshort.
  pose proof (select_mask_short_trial norm extra self prox_a dist_a
                Hmasking Hsame Hshort) as Hsel.
  unfold compute. destruct Hmethod as [-> | ->].
  - rewrite decide_True by reflexivity. now rewrite Hsel.
  - rewrite decide_False by discriminate. rewrite decide_True by reflexivity.
    now rewrite Hsel.
Qed.

(** A closed instance: four samples in strong motion, five requested. *)
Lemma too_few_samples_always_raises_witness :
  compute Examples.float_norm Examples.null_lstsq Examples.null_least_squares 15
    (Examples.centre "SAC" true 5)
    (map s_prox_a Examples.trial4) (map s_dist_a Examples.trial4)
    (map s_prox_w Examples.trial4) (map s_dist_w Examples.trial4)
    (map s_prox_wd Examples.trial4) (map s_dist_wd Examples.trial4)
    (map s_R Examples.trial4)
  = Raised ValueError_motion.
Proof.
  apply (too_few_samples_always_raises Examples.float_norm Examples.null_lstsq
           Examples.null_least_squares 0 (Examples.centre "SAC" true 5)).
  - reflexivity.
  - left. reflexivity.
  - reflexivity.
  - simpl. lia.
Defined.

(** Among the steps below [n], the first one that satisfies a decidable
    condition. *)
Lemma first_such_step (P : nat -> bool) (n : nat) :
  (exists j, (j < n)%nat /\ P j = true) ->
  exists k, (k < n)%nat /\ P k = true /\ forall j, (j < k)%nat -> P j = false.
Proof.
  induction n as [|n IH]; intros (j & Hj & HP); [lia|].
  destruct (forallb (fun i => negb (P i)) (seq 0 n)) eqn:Hnone.
  - exists n. rewrite forallb_forall in Hnone.
    assert (Hbelow : forall i, (i < n)%nat -> P i = false).
    { intros i Hi. apply negb_true_iff, Hnone, in_seq. lia. }
    split; [lia|]. split; [|assumption].
    destruct (decide (j = n)) as [->|Hne]; [assumption|].
    rewrite Hbelow in HP by lia. discriminate.
  - assert (Hsome : exists i, (i < n)%nat /\ P i = true).
    { apply not_true_iff_false in Hnone. rewrite forallb_forall in Hnone.
      destruct (existsb P (seq 0 n)) eqn:Hex.
      - apply existsb_exists in Hex as (i & Hin & Hi). apply in_seq in Hin.
        exists i. split; [lia | assumption].
      - exfalso. apply Hnone. intros i Hin. apply negb_true_iff.
        destruct (P i) eqn:HPi; [|reflexivity].
        assert (existsb P (seq 0 n) = true) by (apply existsb_exists; eauto).
        congruence. }
    destruct (IH Hsome) as (k & Hk & HPk & Hfirst).
    exists k. split; [lia|]. now split.
Qed.

(** X3: the selection in binary64, for masking enabled, two acceleration
    arrays of equal length and a positive [min_samples].  It raises the
    insufficient-motion error exactly when none of the fourteen thresholds
    0.8, 0.75, ..., 0.15 retains [min_samples] samples; it returns a mask
    exactly when one of them does, and the mask is that of the first such
    threshold. *)
Theorem selection_in_binary64 {Kw : Type} (norm : vec3 float -> float)
    (self : Center float Kw) (prox_a dist_a : list (vec3 float)) (extra : nat) :
  mask_input self = true ->
  length prox_a = length dist_a ->
  (0 < min_samples self)%Z ->
  let prox_an := dyn_accel norm (g self) prox_a in
  let dist_an := dyn_accel norm (g self) dist_a in
  (select_mask norm (15 + extra) self prox_a dist_a = Raised ValueError_motion
   <-> forall j, (j < 14)%nat -> (count_at j prox_an dist_an < min_samples self)%Z)
  /\ (forall m,
        select_mask norm (15 + extra) self prox_a dist_a = Returned m
        <-> exists k, (k < 14)%nat
              /\ m = mask_at (ladder k) prox_an dist_an
              /\ (min_samples self <= count_at k prox_an dist_an)%Z
              /\ forall j, (j < k)%nat ->
                   (count_at j prox_an dist_an < min_samples self)%Z).
Proof.
  intros Hmasking Hsame Hpos prox_an dist_an.
  destruct (select_mask_binary64 norm self prox_a dist_a extra Hmasking Hsame Hpos)
    as [Hfirst Hnone].
  fold prox_an dist_an in Hfirst, Hnone.
  set (enough := fun j => (min_samples self <=? count_at j prox_an dist_an)%Z).
  assert (Hcases : (forall j, (j < 14)%nat ->
                      (count_at j prox_an dist_an < min_samples self)%Z)
                   \/ exists k, (k < 14)%nat
                        /\ (min_samples self <= count_at k prox_an dist_an)%Z
                        /\ forall j, (j < k)%nat ->
                             (count_at j prox_an dist_an < min_samples self)%Z).
  { destruct (forallb (fun j => negb (enough j)) (seq 0 14)) eqn:Hall.
    - left. intros j Hj. rewrite forallb_forall in Hall.
      assert (Hj' : negb (enough j) = true) by (apply Hall, in_seq; lia).
      unfold enough in Hj'. apply negb_true_iff in Hj'. lia.
    - right. destruct (first_such_step enough 14) as (k & Hk & Hen & Hbefore).
      + destruct (existsb enough (seq 0 14)) eqn:Hex.
        * apply existsb_exists in Hex as (i & Hin & Hi). apply in_seq in Hin.
          exists i. split; [lia | assumption].
        * exfalso. apply not_true_iff_false in Hall. apply Hall.
          apply forallb_forall. intros i Hin. apply negb_true_iff.
          destruct (enough i) eqn:Hi; [|reflexivity].
          assert (existsb enough (seq 0 14) = true) by (apply existsb_exists; eauto).
          congruence.
      + exists k. split; [assumption|]. unfold enough in Hen, Hbefore. split; [lia|].
        intros j Hj. specialize (Hbefore j Hj). lia. }
  split.
  - split; [|exact Hnone].
    intros Hraised. destruct Hcases as [?|(k & Hk & Hat & Hbefore)]; [assumption|].
    rewrite (Hfirst k Hk Hbefore Hat) in Hraised. discriminate.
  - intros m. split.
    + intros Hret. destruct Hcases as [Hno|(k & Hk & Hat & Hbefore)].
      * rewrite (Hnone Hno) in Hret. discriminate.
      * rewrite (Hfirst k Hk Hbefore Hat) in Hret. injection Hret as <-.
        exists k. now repeat split.
    + intros (k & Hk & -> & Hat & Hbefore). now apply Hfirst.
Qed.

(** A closed instance: of the four samples, three exceed the first
    threshold, and three are requested. *)
Lemma selection_in_binary64_witness :
  exists k, (k < 14)%nat
    /\ [true; false; true; true]
       = mask_at (ladder k)
           (dyn_accel Examples.float_norm (lit (981 # 100)) (map s_prox_a Examples.trial4))
           (dyn_accel Examples.float_norm (lit (981 # 100)) (map s_dist_a Examples.trial4)).
Proof.
  destruct (selection_in_binary64 (Kw := unit) Examples.float_norm
              (Examples.centre "SAC" true 3)
              (map s_prox_a Examples.trial4) (map s_dist_a Examples.trial4) 0
              eq_refl eq_refl eq_refl) as [_ Hret].
  destruct (proj1 (Hret [true; false; true; true])) as (k & Hk & Hm & _).
  - vm_compute. reflexivity.
  - exists k. now split.
Defined.

Lemma select_none {A} (arr : list A) : select (replicate (length arr) false) arr = [].
Proof. induction arr as [|a arr IH]; simpl; [reflexivity | exact IH]. Qed.

(** X4: with masking enabled and [min_samples] zero or negative, the loop
    body never runs (no fuel is needed): the mask stays the initial array of
    N times False and no sample is retained.  On a trial of aligned samples,
    method SAC then calls the linear solver on the empty system and, the
    solver reporting residuals under numpy's rule (none unless there are
    more rows than columns and the rank is full), never returns: it raises
    IndexError at [residual[0]], or passes on the solver's error.  Method
    SSFC starts the nonlinear solver on empty arrays and divides its cost
    by zero. *)
Theorem nonpositive_min_samples_retains_nothing {F : Type} `{Scalar F} {Kw : Type}
    (norm : vec3 F -> F)
    (lstsq : list (list F) -> list (list F) -> outcome (LstsqResult F))
    (least_squares : (list F -> Args F -> outcome (list F)) -> list F ->
                     Args F -> Kw -> outcome (OptimizeResult F))
    (lstsq_residuals : forall A b x residual rank sv,
        lstsq A b = Returned (x, residual, rank, sv) ->
        residual <> [] <-> (6 < length A)%nat /\ rank = 6%Z)
    (fuel : nat) (self : Center F Kw) (trial : list (sample F)) :
  mask_input self = true ->
  (min_samples self <= 0)%Z ->
  select_mask norm fuel self (map s_prox_a trial) (map s_dist_a trial)
  = Returned (replicate (length trial) false)
  /\ mask_sum (replicate (length trial) false) = 0%Z
  /\ (method self = "SAC" ->
      compute norm lstsq least_squares fuel self
        (map s_prox_a trial) (map s_dist_a trial) (map s_prox_w trial)
        (map s_dist_w trial) (map s_prox_wd trial) (map s_dist_wd trial)
        (map s_R trial)
      = match lstsq [] [] with
        | Returned _ => Raised IndexError
        | Raised e => Raised e
        | OutOfFuel => OutOfFuel
        end)
  /\ (method self = "SSFC" ->
      compute norm lstsq least_squares fuel self
        (map s_prox_a trial) (map s_dist_a trial) (map s_prox_w trial)
        (map s_dist_w trial) (map s_prox_wd trial) (map s_dist_wd trial)
        (map s_R trial)
      = (sol ← least_squares (compute_distance_residuals norm) (replicate 6 s0)
                 ([], [], [], [], [], []) (opt_kwargs self);
         Returned (take 3 (sol_x sol), drop 3 (sol_x sol),
                   sdiv (sol_cost sol) (of_int 0)))).
Proof.
  intros Hmasking Hmin.
  assert (Hzero : mask_sum (replicate (length trial) false) = 0%Z)
    by apply mask_sum_replicate_false.
  assert (Hsel : select_mask norm fuel self (map s_prox_a trial) (map s_dist_a trial)
                 = Returned (replicate (length trial) false)).
  { unfold select_mask. rewrite Hmasking. unfold dyn_accel. rewrite !length_map.
    apply mask_loop_exit. rewrite Hzero. exact Hmin. }
  assert (Hnone : forall {B} (f : sample F -> B),
             bool_index (replicate (length trial) false) (map f trial) = Returned []).
  { intros B f. rewrite bool_index_Returned by now rewrite length_replicate, length_map.
    f_equal. rewrite <- (length_map f trial). apply select_none. }
  split; [exact Hsel|]. split; [exact Hzero|]. split.
  - intros Hmethod. unfold compute. rewrite decide_True by assumption.
    rewrite Hsel. cbn [mbind outcome_bind obind]. unfold sac_system.
    rewrite !Hnone. cbn [mbind outcome_bind obind].
    change (sac_A (skew_products [] []) (skew_products [] []) []) with (@nil (list F)).
    change (sac_b [] [] []) with (@nil (list F)).
    destruct (lstsq [] []) as [[[[x residual] rank] sv]| |] eqn:Hsol; try reflexivity.
    destruct residual as [|first rest]; [reflexivity|]. exfalso.
    destruct (proj1 (lstsq_residuals _ _ _ _ _ _ Hsol)) as [Hrows _]; [discriminate|].
    simpl in Hrows. lia.
  - intros Hmethod. unfold compute. rewrite Hmethod.
    rewrite decide_False by discriminate. rewrite decide_True by reflexivity.
    rewrite Hsel. cbn [mbind outcome_bind obind]. unfold ssfc_args.
    rewrite !Hnone. cbn [mbind outcome_bind obind]. now rewrite Hzero.
Qed.

(** A closed instance in binary64: four samples in motion, none requested.
    Method SAC raises IndexError; with method SSFC the nonlinear solver of
    the examples reports cost 0 and the residual returned is 0 / 0, not a
    number. *)
Lemma nonpositive_min_samples_retains_nothing_witness :
  select_mask (Kw := unit) Examples.float_norm 0 (Examples.centre "SSFC" true 0)
    (map s_prox_a Examples.trial4) (map s_dist_a Examples.trial4)
  = Returned [false; false; false; false]
  /\ compute Examples.float_norm Examples.null_lstsq Examples.null_least_squares 0
       (Examples.centre "SAC" true 0)
       (map s_prox_a Examples.trial4) (map s_dist_a Examples.trial4)
       (map s_prox_w Examples.trial4) (map s_dist_w Examples.trial4)
       (map s_prox_wd Examples.trial4) (map s_dist_wd Examples.trial4)
       (map s_R Examples.trial4)
     = Raised IndexError
  /\ compute Examples.float_norm Examples.null_lstsq Examples.null_least_squares 0
       (Examples.centre "SSFC" true 0)
       (map s_prox_a Examples.trial4) (map s_dist_a Examples.trial4)
       (map s_prox_w Examples.trial4) (map s_dist_w Examples.trial4)
       (map s_prox_wd Examples.trial4) (map s_dist_wd Examples.trial4)
       (map s_R Examples.trial4)
     = Returned ([0; 0; 0]%float, [0; 0; 0]%float, PrimFloat.nan).
Proof.
  destruct (nonpositive_min_samples_retains_nothing Examples.float_norm
              Examples.null_lstsq Examples.null_least_squares null_lstsq_residuals 0
              (Examples.centre "SSFC" true 0) Examples.trial4 eq_refl)
    as (Hsel & _ & _ & Hssfc); [discriminate|].
  destruct (nonpositive_min_samples_retains_nothing Examples.float_norm
              Examples.null_lstsq Examples.null_least_squares null_lstsq_residuals 0
              (Examples.centre "SAC" true 0) Examples.trial4 eq_refl)
    as (_ & _ & Hsac & _); [discriminate|].
  split; [exact Hsel|]. split.
  - rewrite (Hsac eq_refl). reflexivity.
  - rewrite (Hssfc eq_refl). vm_compute. reflexivity.
Defined.

(** X5: with [mask_input=False], on a trial of N aligned samples, every
    sample is used and the solver's figure is divided by N, whatever [g],
    [min_samples] and the data: method SAC solves the system assembled from
    the whole arrays, method SSFC starts the nonlinear solver on the whole
    arrays.  No arithmetic law is needed, so this holds in binary64. *)
Theorem without_masking_every_sample_is_used {F : Type} `{Scalar F} {Kw : Type}
    (norm : vec3 F -> F)
    (lstsq : list (list F) -> list (list F) -> outcome (LstsqResult F))
    (least_squares : (list F -> Args F -> outcome (list F)) -> list F ->
                     Args F -> Kw -> outcome (OptimizeResult F))
    (fuel : nat) (self : Center F Kw) (trial : list (sample F)) :
  mask_input self = false ->
  (method self = "SAC" ->
   compute norm lstsq least_squares fuel self
     (map s_prox_a trial) (map s_dist_a trial) (map s_prox_w trial)
     (map s_dist_w trial) (map s_prox_wd trial) (map s_dist_wd trial)
     (map s_R trial)
   = ('(x, residual, _, _) ←
        lstsq (sac_A (skew_products (map s_prox_w trial) (map s_prox_wd trial))
                     (skew_products (map s_dist_w trial) (map s_dist_wd trial))
                     (map s_R trial))
              (sac_b (map s_prox_a trial) (map s_dist_a trial) (map s_R trial));
      first ← index0 residual;
      Returned (take 3 (resize6 x), drop 3 (resize6 x),
                sdiv first (of_int (Z.of_nat (length trial))))))
  /\ (method self = "SSFC" ->
      compute norm lstsq least_squares fuel self
        (map s_prox_a trial) (map s_dist_a trial) (map s_prox_w trial)
        (map s_dist_w trial) (map s_prox_wd trial) (map s_dist_wd trial)
        (map s_R trial)
      = (sol ← least_squares (compute_distance_residuals norm) (replicate 6 s0)
                 (args_of trial) (opt_kwargs self);
         Returned (take 3 (sol_x sol), drop 3 (sol_x sol),
                   sdiv (sol_cost sol) (of_int (Z.of_nat (length trial)))))).
Proof.
  intros Hoff.
  assert (Hsel : select_mask norm fuel self (map s_prox_a trial) (map s_dist_a trial)
                 = Returned (replicate (length trial) true)).
  { unfold select_mask. now rewrite Hoff, length_map. }
  assert (Hall : forall {B} (f : sample F -> B),
             bool_index (replicate (length trial) true) (map f trial)
             = Returned (map f trial)).
  { intros B f. rewrite bool_index_Returned by now rewrite length_replicate, length_map.
    f_equal. rewrite <- (length_map f trial). apply select_all. }
  split.
  - intros Hmethod. unfold compute. rewrite decide_True by assumption.
    rewrite Hsel. cbn [mbind outcome_bind obind]. unfold sac_system.
    rewrite !Hall. cbn [mbind outcome_bind obind]. rewrite mask_sum_replicate_true.
    destruct (lstsq _ _) as [[[[x residual] rank] sv]| |]; reflexivity.
  - intros Hmethod. unfold compute. rewrite Hmethod.
    rewrite decide_False by discriminate. rewrite decide_True by reflexivity.
    rewrite Hsel. cbn [mbind outcome_bind obind]. unfold ssfc_args.
    rewrite !Hall. cbn [mbind outcome_bind obind].
    now rewrite mask_sum_replicate_true.
Qed.

(** A closed instance in binary64: all four samples are used, the one at
    rest included; the solver of the examples reports 0.75 and the residual
    returned is 0.75 / 4. *)
Lemma without_masking_every_sample_is_used_witness :
  compute Examples.float_norm Examples.null_lstsq Examples.null_least_squares 0
    (Examples.centre "SAC" false 1000)
    (map s_prox_a Examples.trial4) (map s_dist_a Examples.trial4)
    (map s_prox_w Examples.trial4) (map s_dist_w Examples.trial4)
    (map s_prox_wd Examples.trial4) (map s_dist_wd Examples.trial4)
    (map s_R Examples.trial4)
  = Returned ([0; 0; 0]%float, [0; 0; 0]%float, 0.1875%float).
Proof.
  rewrite (proj1 (without_masking_every_sample_is_used Examples.float_norm
                    Examples.null_lstsq Examples.null_least_squares 0
                    (Examples.centre "SAC" false 1000) Examples.trial4 eq_refl)
             eq_refl).
  vm_compute. reflexivity.
Defined.

(** ** Arrays of the wrong length *)

Lemma bool_index_mismatch {A} (mask : list bool) (arr : list A) :
  length arr <> length mask -> bool_index mask arr = Raised IndexError.
Proof. intros Hne. unfold bool_index. now rewrite decide_False by congruence. Qed.

Lemma bool_index_cases {A} (mask : list bool) (arr : list A) :
  (length arr = length mask /\ bool_index mask arr = Returned (select mask arr))
  \/ (length arr <> length mask /\ bool_index mask arr = Raised IndexError).
Proof.
  destruct (decide (length arr = length mask)) as [Heq|Hne].
  - left. split; [assumption|]. now apply bool_index_Returned.
  - right. split; [assumption|]. now apply bool_index_mismatch.
Qed.

(** X6: once a mask is selected, [compute] raises IndexError, without
    calling a solver, as soon as one of the arrays it indexes by the mask
    has a number of rows other than the mask's: any of the six kinematic
    arrays for either method, and the rotations for method SAC. *)
Theorem wrong_length_raises_IndexError {F : Type} `{Scalar F} {Kw : Type}
    (norm : vec3 F -> F)
    (lstsq : list (list F) -> list (list F) -> outcome (LstsqResult F))
    (least_squares : (list F -> Args F -> outcome (list F)) -> list F ->
                     Args F -> Kw -> outcome (OptimizeResult F))
    (fuel : nat) (self : Center F Kw)
    (prox_a dist_a prox_w dist_w prox_wd dist_wd : list (vec3 F))
    (R_dist_prox : list (mat3 F)) (mask : list bool) :
  select_mask norm fuel self prox_a dist_a = Returned mask ->
  length prox_a <> length mask \/ length dist_a <> length mask
  \/ length prox_w <> length mask \/ length dist_w <> length mask
  \/ length prox_wd <> length mask \/ length dist_wd <> length mask
  \/ (method self = "SAC" /\ length R_dist_prox <> length mask) ->
  method self = "SAC" \/ method self = "SSFC" ->
  compute norm lstsq least_squares fuel self
    prox_a dist_a prox_w dist_w prox_wd dist_wd R_dist_prox
  = Raised IndexError.
Proof.
  intros Hsel Hbad Hmethod. unfold compute.
  destruct (decide (method self = "SAC")) as [Hsac|Hnsac].
  - rewrite Hsel. cbn [mbind outcome_bind obind]. unfold sac_system.
    destruct (bool_index_cases mask prox_w) as [[? ->]|[? ->]]; [|reflexivity].
    destruct (bool_index_cases mask prox_wd) as [[? ->]|[? ->]]; [|reflexivity].
    destruct (bool_index_cases mask dist_w) as [[? ->]|[? ->]]; [|reflexivity].
    destruct (bool_index_cases mask dist_wd) as [[? ->]|[? ->]]; [|reflexivity].
    destruct (bool_index_cases mask R_dist_prox) as [[? ->]|[? ->]]; [|reflexivity].
    destruct (bool_index_cases mask prox_a) as [[? ->]|[? ->]]; [|reflexivity].
    destruct (bool_index_cases mask dist_a) as [[? ->]|[? ->]]; [|reflexivity].
    exfalso. intuition congruence.
  - destruct Hmethod as [?|Hssfc]; [contradiction|].
    rewrite decide_True by assumption.
    rewrite Hsel. cbn [mbind outcome_bind obind]. unfold ssfc_args.
    destruct (bool_index_cases mask prox_a) as [[? ->]|[? ->]]; [|reflexivity].
    destruct (bool_index_cases mask dist_a) as [[? ->]|[? ->]]; [|reflexivity].
    destruct (bool_index_cases mask prox_w) as [[? ->]|[? ->]]; [|reflexivity].
    destruct (bool_index_cases mask dist_w) as [[? ->]|[? ->]]; [|reflexivity].
    destruct (bool_index_cases mask prox_wd) as [[? ->]|[? ->]]; [|reflexivity].
    destruct (bool_index_cases mask dist_wd) as [[? ->]|[? ->]]; [|reflexivity].
    exfalso. intuition congruence.
Qed.

(** A closed instance: masking disabled, four accelerations but only three
    proximal angular velocities. *)
Lemma wrong_length_raises_IndexError_witness :
  compute Examples.float_norm Examples.null_lstsq Examples.null_least_squares 0
    (Examples.centre "SSFC" false 1000)
    (map s_prox_a Examples.trial4) (map s_dist_a Examples.trial4)
    (drop 1 (map s_prox_w Examples.trial4)) (map s_dist_w Examples.trial4)
    (map s_prox_wd Examples.trial4) (map s_dist_wd Examples.trial4)
    (map s_R Examples.trial4)
  = Raised IndexError.
Proof.
  apply (wrong_length_raises_IndexError Examples.float_norm Examples.null_lstsq
           Examples.null_least_squares 0 (Examples.centre "SSFC" false 1000)
           _ _ _ _ _ _ _ [true; true; true; true]).
  - reflexivity.
  - right. right. left. simpl. lia.
  - right. reflexivity.
Defined.

Lemma broadcast2_mismatch {A B C} (f : A -> B -> C) (u : list A) (v : list B) :
  length u <> length v -> length u <> 1%nat -> length v <> 1%nat ->
  broadcast2 f u v = Raised ValueError_broadcast.
Proof.
  intros Hne Hu Hv. unfold broadcast2. rewrite decide_False by assumption.
  destruct u as [|a [|a' u]], v as [|b [|b' v]]; simpl in *; congruence.
Qed.

(** X7: with masking enabled and a positive [min_samples], two
    acceleration arrays whose numbers of rows differ, neither being 1,
    cannot be combined by [logical_and]: [compute] raises the broadcasting
    ValueError in the first iteration of the loop, with either method. *)
Theorem accelerations_of_different_length_raise {F : Type} `{Scalar F} {Kw : Type}
    (norm : vec3 F -> F)
    (lstsq : list (list F) -> list (list F) -> outcome (LstsqResult F))
    (least_squares : (list F -> Args F -> outcome (list F)) -> list F ->
                     Args F -> Kw -> outcome (OptimizeResult F))
    (fuel : nat) (self : Center F Kw)
    (prox_a dist_a prox_w dist_w prox_wd dist_wd : list (vec3 F))
    (R_dist_prox : list (mat3 F)) :
  mask_input self = true ->
  (0 < min_samples self)%Z ->
  method self = "SAC" \/ method self = "SSFC" ->
  length prox_a <> length dist_a ->
  length prox_a <> 1%nat -> length dist_a <> 1%nat ->
  compute norm lstsq least_squares (S fuel) self
    prox_a dist_a prox_w dist_w prox_wd dist_wd R_dist_prox
  = Raised ValueError_broadcast.
Proof.
  intros Hmasking Hpos Hmethod Hne Hp Hd.
  assert (Hsel : select_mask norm (S fuel) self prox_a dist_a
                 = Raised ValueError_broadcast).
  { unfold select_mask. rewrite Hmasking. cbn [mask_loop].
    rewrite mask_sum_replicate_false.
    destruct (Z.ltb_spec 0 (min_samples self)) as [_|?]; [|lia].
    unfold logical_and, above, dyn_accel.
    rewrite broadcast2_mismatch by now rewrite !length_map. reflexivity. }
  unfold compute. destruct Hmethod as [-> | ->].
  - rewrite decide_True by reflexivity. now rewrite Hsel.
  - rewrite decide_False by discriminate. rewrite decide_True by reflexivity.
    now rewrite Hsel.
Qed.

(** A closed instance: four proximal accelerations against two distal. *)
Lemma accelerations_of_different_length_raise_witness :
  compute Examples.float_norm Examples.null_lstsq Examples.null_least_squares 1
    (Examples.centre "SAC" true 3)
    (map s_prox_a Examples.trial4) (drop 2 (map s_dist_a Examples.trial4))
    (map s_prox_w Examples.trial4) (map s_dist_w Examples.trial4)
    (map s_prox_wd Examples.trial4) (map s_dist_wd Examples.trial4)
    (map s_R Examples.trial4)
  = Raised ValueError_broadcast.
Proof.
  apply (accelerations_of_different_length_raise Examples.float_norm
           Examples.null_lstsq Examples.null_least_squares 0
           (Examples.centre "SAC" true 3)).
  - reflexivity.
  - reflexivity.
  - left. reflexivity.
  - simpl. lia.
  - simpl. lia.
  - simpl. lia.
Defined.

(** * Further properties in exact arithmetic *)

Lemma apply_rows_concat {F : Type} `{Scalar F} {A} (block : A -> list (list F))
    (kept : list A) (r : list F) :
  apply_rows (concat (map block kept)) r
  = concat (map (fun s => apply_rows (block s) r) kept).
Proof.
  unfold apply_rows. rewrite concat_map, map_map. reflexivity.
Qed.

Section ExactKinematics.
Context {F : Type} `{Scalar F}.
Hypothesis Fring : ring_theory s0 s1 sadd smul ssub sopp (@eq F).
Add Ring Fring_kinematics : Fring.
Local Open Scope scalar_scope.
Variable norm : vec3 F -> F.

Lemma vsub_zero_offset (a w wd : vec3 F) :
  vsub a (mat_vec (skew_K w wd) (V3 s0 s0 s0)) = a.
Proof using Fring.
  destruct a as [ax ay az], w as [wx wy wz], wd as [dx dy dz].
  unfold vsub, mat_vec, skew_K, dot3; simpl. f_equal; ring.
Qed.

Lemma vsub_no_rotation (a r : vec3 F) :
  vsub a (mat_vec (skew_K (V3 s0 s0 s0) (V3 s0 s0 s0)) r) = a.
Proof using Fring.
  destruct a as [ax ay az], r as [rx ry rz].
  unfold vsub, mat_vec, skew_K, dot3; simpl. f_equal; ring.
Qed.

(** The block of a sample that follows the rigid-body model, applied to
    the true offsets, gives the sample's right-hand side. *)
Lemma sac_block_rigid_body (r_prox r_dist : vec3 F) (s : sample F) :
  rigid_body r_prox r_dist s ->
  apply_rows (sac_block s) (offsets r_prox r_dist) = sac_rhs s.
Proof using Fring.
  intros (aJ & Hp & Hd).
  destruct s as [pa da pw dw pwd dwd R]. simpl in Hp, Hd. subst pa da.
  unfold sac_block, sac_rhs, offsets, apply_rows, dot_row. cbn [s_prox_a s_dist_a
    s_prox_w s_dist_w s_prox_wd s_dist_wd s_R].
  destruct r_prox as [px py pz], r_dist as [qx qy qz], aJ as [jx jy jz],
    pw as [wx wy wz], dw as [vx' vy' vz'], pwd as [ax ay az], dwd as [bx by' bz],
    R as [[r11 r12 r13] [r21 r22 r23] [r31 r32 r33]].
  unfold hcat, column, skew_K, mat_opp, mat_mul, mat_vec, vopp, vsub, vadd, cross,
    dot3, mat_col0, mat_col1, mat_col2; simpl.
  repeat f_equal; ring.
Qed.

(** The block of a sample whose proximal sensor turns about the axis [u]
    annihilates the offsets (u, 0). *)
Lemma sac_block_about_axis (u : vec3 F) (s : sample F) :
  about_axis u s ->
  apply_rows (sac_block s) (offsets u (V3 s0 s0 s0)) = [[s0]; [s0]; [s0]].
Proof using Fring.
  intros (c & d & Hw & Hwd).
  destruct s as [pa da pw dw pwd dwd R]. simpl in Hw, Hwd. subst pw pwd.
  unfold sac_block, offsets, apply_rows, dot_row. cbn [s_prox_a s_dist_a
    s_prox_w s_dist_w s_prox_wd s_dist_wd s_R].
  destruct u as [ux uy uz], dw as [vx' vy' vz'], dwd as [bx by' bz],
    R as [[r11 r12 r13] [r21 r22 r23] [r31 r32 r33]].
  unfold hcat, skew_K, mat_opp, mat_mul, vopp, vscale, dot3,
    mat_col0, mat_col1, mat_col2; simpl.
  repeat f_equal; ring.
Qed.
End ExactKinematics.

(** X8: in exact arithmetic, at the initial guess of six zeros the residual
    function gives, for each sample, the difference of the two acceleration
    magnitudes |a_prox| - |a_dist|: angular velocities and accelerations
    play no part in the cost the nonlinear solver starts from. *)
Theorem residuals_at_initial_guess {F : Type} `{Scalar F}
    (Fring : ring_theory s0 s1 sadd smul ssub sopp (@eq F))
    (norm : vec3 F -> F) (kept : list (sample F)) :
  compute_distance_residuals norm (replicate 6 s0) (args_of kept)
  = Returned (map (fun s => ssub (norm (s_prox_a s)) (norm (s_dist_a s))) kept).
Proof.
  change (replicate 6 s0) with
    [vx (V3 s0 s0 s0); vy (V3 s0 s0 s0); vz (V3 s0 s0 s0);
     vx (V3 s0 s0 s0); vy (V3 s0 s0 s0); vz (V3 s0 s0 s0)].
  rewrite (compute_distance_residuals_trial Fring). f_equal.
  apply map_ext. intros s. unfold ssfc_residual.
  now rewrite !(vsub_zero_offset Fring).
Qed.

(** A closed instance in exact rationals: accelerations 11 and 11.5 along z
    give -1/2, a sample at rest gives 0. *)
Lemma residuals_at_initial_guess_witness :
  compute_distance_residuals Examples.axis_norm (replicate 6 s0)
    (args_of (Examples.trial4 (F := Qc)))
  = Returned (map (fun s => ssub (Examples.axis_norm (s_prox_a s))
                                 (Examples.axis_norm (s_dist_a s)))
                Examples.trial4).
Proof.
  apply (residuals_at_initial_guess (H := Qc_scalar) Qcrt).
Defined.

(** X9: in exact arithmetic, on samples without any rotation (both angular
    velocities and both angular accelerations zero) the residual function
    does not depend on the offsets: for every candidate it gives
    |a_prox| - |a_dist|, so method SSFC has nothing to fit. *)
Theorem residuals_without_rotation {F : Type} `{Scalar F}
    (Fring : ring_theory s0 s1 sadd smul ssub sopp (@eq F))
    (norm : vec3 F -> F) (kept : list (sample F)) (r_prox r_dist : vec3 F) :
  Forall (fun s => s_prox_w s = V3 s0 s0 s0 /\ s_prox_wd s = V3 s0 s0 s0
                   /\ s_dist_w s = V3 s0 s0 s0 /\ s_dist_wd s = V3 s0 s0 s0) kept ->
  compute_distance_residuals norm (offsets r_prox r_dist) (args_of kept)
  = Returned (map (fun s => ssub (norm (s_prox_a s)) (norm (s_dist_a s))) kept).
Proof.
  intros Hstill. unfold offsets.
  rewrite (compute_distance_residuals_trial Fring). f_equal.
  apply map_ext_Forall. eapply Forall_impl; [exact Hstill|].
  intros s (Hpw & Hpwd & Hdw & Hdwd). unfold ssfc_residual.
  rewrite Hpw, Hpwd, Hdw, Hdwd. now rewrite !(vsub_no_rotation Fring).
Qed.

(** A closed instance in exact rationals: two samples at rest, offsets
    (1, 0, 0) and (0, 1, 0). *)
Lemma residuals_without_rotation_witness :
  compute_distance_residuals Examples.axis_norm
    (offsets (V3 s1 s0 s0) (V3 s0 s1 s0))
    (args_of [Examples.resting (F := Qc) (981 # 100) (981 # 100);
              Examples.resting (1000 # 100) (981 # 100)])
  = Returned (map (fun s => ssub (Examples.axis_norm (s_prox_a s))
                                 (Examples.axis_norm (s_dist_a s)))
                [Examples.resting (981 # 100) (981 # 100);
                 Examples.resting (1000 # 100) (981 # 100)]).
Proof.
  apply (residuals_without_rotation (H := Qc_scalar) Qcrt).
  repeat constructor.
Defined.

(** X10: in exact arithmetic, on a trial of aligned samples, if the
    retained samples follow rigid-body kinematics about a joint centre with
    sensor offsets [r_prox] and [r_dist], then the system (A, b) that method
    SAC assembles is solved exactly by those offsets: A (r_prox, r_dist) = b. *)
Theorem true_offsets_solve_the_sac_system {F : Type} `{Scalar F}
    (Fring : ring_theory s0 s1 sadd smul ssub sopp (@eq F))
    (mask : list bool) (trial : list (sample F)) (r_prox r_dist : vec3 F) :
  length mask = length trial ->
  Forall (rigid_body r_prox r_dist) (select mask trial) ->
  exists A b,
    sac_system mask (map s_prox_a trial) (map s_dist_a trial)
      (map s_prox_w trial) (map s_dist_w trial)
      (map s_prox_wd trial) (map s_dist_wd trial) (map s_R trial)
    = Returned (A, b)
    /\ apply_rows A (offsets r_prox r_dist) = b.
Proof.
  intros Hlen Hrigid. eexists _, _. split.
  - now apply (sac_system_trial Fring).
  - unfold stack. rewrite apply_rows_concat. f_equal.
    apply map_ext_Forall. eapply Forall_impl; [exact Hrigid|].
    intros s Hs. now apply (sac_block_rigid_body Fring).
Qed.

(** A closed instance in exact rationals: three samples of a joint turning
    about z, the sensors at (0.1, 0, 0) and (-0.2, 0, 0). *)
Lemma true_offsets_solve_the_sac_system_witness :
  exists A b,
    sac_system [true; true; true]
      (map s_prox_a [Examples.orbiting (F := Qc); Examples.orbiting; Examples.orbiting])
      (map s_dist_a [Examples.orbiting (F := Qc); Examples.orbiting; Examples.orbiting])
      (map s_prox_w [Examples.orbiting (F := Qc); Examples.orbiting; Examples.orbiting])
      (map s_dist_w [Examples.orbiting (F := Qc); Examples.orbiting; Examples.orbiting])
      (map s_prox_wd [Examples.orbiting (F := Qc); Examples.orbiting; Examples.orbiting])
      (map s_dist_wd [Examples.orbiting (F := Qc); Examples.orbiting; Examples.orbiting])
      (map s_R [Examples.orbiting (F := Qc); Examples.orbiting; Examples.orbiting])
    = Returned (A, b)
    /\ apply_rows A (offsets (V3 (lit (1 # 10)) s0 s0) (V3 (lit (-2 # 10)) s0 s0)) = b.
Proof.
  apply (true_offsets_solve_the_sac_system (H := Qc_scalar) Qcrt); [reflexivity|].
  assert (Horbit : rigid_body (V3 (lit (1 # 10)) s0 s0) (V3 (lit (-2 # 10)) s0 s0)
                     (Examples.orbiting (F := Qc))).
  { exists (V3 s0 s0 (lit (981 # 100))). unfold Examples.orbiting, vadd, cross, mat_vec, dot3.
    simpl. split; f_equal; apply Qc_is_canon; reflexivity. }
  simpl select. repeat constructor; exact Horbit.
Defined.

(** X11: in exact arithmetic, on a trial of aligned samples, if in every
    retained sample the proximal sensor's angular velocity and angular
    acceleration are multiples of one vector [u] (rotation about a fixed
    axis), then the matrix A of method SAC maps the offsets (u, 0) to zero:
    the proximal offset along the axis is not determined by the system. *)
Theorem fixed_axis_is_in_the_kernel {F : Type} `{Scalar F}
    (Fring : ring_theory s0 s1 sadd smul ssub sopp (@eq F))
    (mask : list bool) (trial : list (sample F)) (u : vec3 F) :
  length mask = length trial ->
  Forall (about_axis u) (select mask trial) ->
  exists A b,
    sac_system mask (map s_prox_a trial) (map s_dist_a trial)
      (map s_prox_w trial) (map s_dist_w trial)
      (map s_prox_wd trial) (map s_dist_wd trial) (map s_R trial)
    = Returned (A, b)
    /\ apply_rows A (offsets u (V3 s0 s0 s0)) = map (fun _ => [s0]) A.
Proof.
  intros Hlen Haxis. eexists _, _. split.
  - now apply (sac_system_trial Fring).
  - unfold stack. rewrite apply_rows_concat, concat_map. f_equal.
    rewrite map_map. apply map_ext_Forall. eapply Forall_impl; [exact Haxis|].
    intros s Hs. now rewrite (sac_block_about_axis Fring).
Qed.

(** A closed instance in exact rationals: the samples of the example trial
    all turn about z. *)
Lemma fixed_axis_is_in_the_kernel_witness :
  exists A b,
    sac_system [true; false; true; true]
      (map s_prox_a (Examples.trial4 (F := Qc))) (map s_dist_a Examples.trial4)
      (map s_prox_w Examples.trial4) (map s_dist_w Examples.trial4)
      (map s_prox_wd Examples.trial4) (map s_dist_wd Examples.trial4)
      (map s_R Examples.trial4)
    = Returned (A, b)
    /\ apply_rows A (offsets (V3 s0 s0 s1) (V3 s0 s0 s0)) = map (fun _ => [s0]) A.
Proof.
  apply (fixed_axis_is_in_the_kernel (H := Qc_scalar) Qcrt); [reflexivity|].
  assert (Hspin : forall zp zd, about_axis (V3 s0 s0 s1) (Examples.spinning (F := Qc) zp zd)).
  { intros zp zd. exists s1, s0. unfold Examples.spinning, vscale. simpl.
    split; f_equal; apply Qc_is_canon; reflexivity. }
  simpl select. repeat constructor; apply Hspin.
Defined.

(** * Shapes of what is built and returned *)

Lemma length_transported {F : Type} `{Scalar F} {A} (acc w wd : A -> vec3 F)
    (kept : list A) (r : list F) :
  length r = 3%nat ->
  exists at', transported (map acc kept) (map w kept) (map wd kept) r = Returned at'
              /\ length at' = length kept.
Proof.
  intros Hr. destruct r as [|a [|b [|c [|d r]]]]; try discriminate.
  unfold transported. cbn [cross_with mbind outcome_bind obind].
  rewrite broadcast2_same_length by now rewrite !length_map.
  cbn [mbind outcome_bind obind].
  rewrite broadcast2_same_length
    by now rewrite length_zip_with, !length_map, Nat.min_id.
  cbn [mbind outcome_bind obind].
  rewrite broadcast2_same_length
    by now rewrite !length_zip_with, !length_map, !Nat.min_id.
  eexists. split; [reflexivity|].
  now rewrite !length_zip_with, !length_map, !Nat.min_id.
Qed.

(** X12: in any arithmetic, on the arrays of a trial of aligned samples
    and a candidate of six entries, the residual function returns exactly
    one residual per sample and raises nothing. *)
Theorem one_residual_per_sample {F : Type} `{Scalar F} (norm : vec3 F -> F)
    (kept : list (sample F)) (r : list F) :
  length r = 6%nat ->
  exists e, compute_distance_residuals norm r (args_of kept) = Returned e
            /\ length e = length kept.
Proof.
  intros Hr. unfold compute_distance_residuals, args_of.
  destruct (length_transported s_prox_a s_prox_w s_prox_wd kept (take 3 r))
    as (at1 & -> & Hat1); [rewrite length_take; lia|].
  destruct (length_transported s_dist_a s_dist_w s_dist_wd kept (drop 3 r))
    as (at2 & -> & Hat2); [rewrite length_drop; lia|].
  cbn [mbind outcome_bind obind].
  rewrite broadcast2_same_length by (rewrite !length_map; congruence).
  eexists. split; [reflexivity|].
  rewrite length_zip_with, !length_map. lia.
Qed.

(** A closed instance in binary64: four samples, four residuals. *)
Lemma one_residual_per_sample_witness :
  exists e, compute_distance_residuals Examples.float_norm
              [0.5; 0; 0; -0.25; 0; 0]%float (args_of Examples.trial4) = Returned e
            /\ length e = 4%nat.
Proof.
  apply (one_residual_per_sample Examples.float_norm Examples.trial4). reflexivity.
Defined.

Lemma length_zip_with3 {A B C D} (f : A -> B -> C -> D)
    (u : list A) (v : list B) (w : list C) :
  length u = length v -> length v = length w ->
  length (zip_with3 f u v w) = length u.
Proof.
  intros Huv Hvw. unfold zip_with3. rewrite !length_zip_with. lia.
Qed.

Lemma Forall_concat_rows {A} (P : A -> Prop) (blocks : list (list A)) :
  Forall (Forall P) blocks -> Forall P (concat blocks).
Proof.
  induction 1 as [|blk blocks Hblk _ IH]; simpl; [constructor|].
  apply Forall_app. now split.
Qed.

Lemma Forall_zip_with_all {A B C} (P : C -> Prop) (f : A -> B -> C) :
  (forall x y, P (f x y)) -> forall l k, Forall P (zip_with f l k).
Proof.
  intros HP. induction l as [|x l IH]; intros [|y k]; simpl; constructor; auto.
Qed.

Lemma Forall_map_all {A B} (P : B -> Prop) (f : A -> B) :
  (forall x, P (f x)) -> forall l, Forall P (map f l).
Proof.
  intros HP. induction l as [|x l IH]; simpl; constructor; auto.
Qed.

(** X13: in any arithmetic, whenever the indexing by the mask succeeds,
    the system of method SAC has the shape the linear solver expects: with
    M the number of retained samples, A has 3M rows of six entries and b
    has 3M rows of one entry. *)
Theorem sac_system_shape {F : Type} `{Scalar F} (mask : list bool)
    (prox_a dist_a prox_w dist_w prox_wd dist_wd : list (vec3 F))
    (R_dist_prox : list (mat3 F)) (A b : list (list F)) :
  sac_system mask prox_a dist_a prox_w dist_w prox_wd dist_wd R_dist_prox
  = Returned (A, b) ->
  Z.of_nat (length A) = (3 * mask_sum mask)%Z
  /\ Forall (fun row => length row = 6%nat) A
  /\ Z.of_nat (length b) = (3 * mask_sum mask)%Z
  /\ Forall (fun row => length row = 1%nat) b.
Proof.
  intros Hsys. destruct (sac_system_inv _ _ _ _ _ _ _ _ _ _ Hsys) as [Hlen HA].
  split; [exact HA|]. revert Hsys. unfold sac_system.
  destruct (bool_index_cases mask prox_w) as [[? ->]|[? ->]]; [|discriminate].
  destruct (bool_index_cases mask prox_wd) as [[? ->]|[? ->]]; [|discriminate].
  destruct (bool_index_cases mask dist_w) as [[? ->]|[? ->]]; [|discriminate].
  destruct (bool_index_cases mask dist_wd) as [[? ->]|[? ->]]; [|discriminate].
  destruct (bool_index_cases mask R_dist_prox) as [[? ->]|[? ->]]; [|discriminate].
  destruct (bool_index_cases mask prox_a) as [[Hpa ->]|[? ->]]; [|discriminate].
  destruct (bool_index_cases mask dist_a) as [[Hda ->]|[? ->]]; [|discriminate].
  cbn [mbind outcome_bind obind]. intros [= <- <-].
  pose proof (length_select mask prox_a (eq_sym Hpa)) as Mpa.
  pose proof (length_select mask dist_a (eq_sym Hda)) as Mda.
  pose proof (length_select mask R_dist_prox ltac:(congruence)) as MR.
  split; [|split].
  - unfold sac_A. apply Forall_concat_rows, Forall_zip_with_all.
    intros k l. unfold hcat. repeat constructor.
  - unfold sac_b. rewrite length_concat.
    assert (Hsum : forall l : list (vec3 F),
               list_sum (map length (map column l)) = (3 * length l)%nat).
    { induction l as [|v l IH]; simpl; [reflexivity | rewrite IH; lia]. }
    rewrite Hsum, !length_zip_with. lia.
  - unfold sac_b. apply Forall_concat_rows, Forall_map_all.
    intros v. unfold column. repeat constructor.
Qed.

(** A closed instance in binary64: three retained samples, nine rows. *)
Lemma sac_system_shape_witness :
  exists A b,
    sac_system [true; false; true; true]
      (map s_prox_a (Examples.trial4 (F := float))) (map s_dist_a Examples.trial4)
      (map s_prox_w Examples.trial4) (map s_dist_w Examples.trial4)
      (map s_prox_wd Examples.trial4) (map s_dist_wd Examples.trial4)
      (map s_R Examples.trial4)
    = Returned (A, b)
    /\ length A = 9%nat /\ length b = 9%nat
    /\ Forall (fun row => length row = 6%nat) A.
Proof.
  destruct (sac_system [true; false; true; true]
              (map s_prox_a (Examples.trial4 (F := float))) (map s_dist_a Examples.trial4)
              (map s_prox_w Examples.trial4) (map s_dist_w Examples.trial4)
              (map s_prox_wd Examples.trial4) (map s_dist_wd Examples.trial4)
              (map s_R Examples.trial4))
    as [[A b]| |] eqn:Hsys; [|vm_compute in Hsys; discriminate..].
  exists A, b. split; [reflexivity|].
  destruct (sac_system_shape _ _ _ _ _ _ _ _ _ _ Hsys) as (HA & HA6 & Hb & _).
  simpl in HA, Hb. split; [lia|]. split; [lia | exact HA6].
Defined.

(** X14: the shape of the offsets returned.  Method SAC always returns two
    vectors of exactly three entries, whatever the shape of the solver's
    solution, because the solution is resized to six entries first; method
    SSFC returns the nonlinear solver's vector as it is, cut after its third
    entry, so the two parts put together are that vector. *)
Theorem returned_offsets_shape {F : Type} `{Scalar F} {Kw : Type}
    (norm : vec3 F -> F)
    (lstsq : list (list F) -> list (list F) -> outcome (LstsqResult F))
    (least_squares : (list F -> Args F -> outcome (list F)) -> list F ->
                     Args F -> Kw -> outcome (OptimizeResult F))
    (fuel : nat) (self : Center F Kw)
    (prox_a dist_a prox_w dist_w prox_wd dist_wd : list (vec3 F))
    (R_dist_prox : list (mat3 F)) (r_prox r_dist : list F) (residual : F) :
  compute norm lstsq least_squares fuel self
    prox_a dist_a prox_w dist_w prox_wd dist_wd R_dist_prox
  = Returned (r_prox, r_dist, residual) ->
  (method self = "SAC" -> length r_prox = 3%nat /\ length r_dist = 3%nat)
  /\ (method self = "SSFC" ->
      exists mask args sol,
        select_mask norm fuel self prox_a dist_a = Returned mask
        /\ ssfc_args mask prox_a dist_a prox_w dist_w prox_wd dist_wd = Returned args
        /\ least_squares (compute_distance_residuals norm) (replicate 6 s0) args
             (opt_kwargs self) = Returned sol
        /\ r_prox ++ r_dist = sol_x sol).
Proof.
  unfold compute. destruct (decide (method self = "SAC")) as [Hsac|Hnsac].
  - destruct (select_mask _ _ _ _ _) as [mask| |]; try discriminate.
    cbn [mbind outcome_bind obind].
    destruct (sac_system _ _ _ _ _ _ _ _) as [[A b]| |]; try discriminate.
    cbn [mbind outcome_bind obind].
    destruct (lstsq A b) as [[[[x res] rank] sv]| |]; try discriminate.
    cbn [mbind outcome_bind obind].
    destruct res as [|first rest]; [discriminate|]. simpl. intros [= <- <- _].
    split; [|intros Hssfc; rewrite Hssfc in Hsac; discriminate].
    intros _. rewrite length_take, length_drop, length_resize6. lia.
  - destruct (decide (method self = "SSFC")) as [Hssfc|]; [|discriminate].
    destruct (select_mask _ _ _ _ _) as [mask| |] eqn:Hmask; try discriminate.
    cbn [mbind outcome_bind obind].
    destruct (ssfc_args _ _ _ _ _ _ _) as [args| |] eqn:Hargs; try discriminate.
    cbn [mbind outcome_bind obind].
    destruct (least_squares _ _ _ _) as [sol| |] eqn:Hsol; try discriminate.
    simpl. intros [= <- <- _]. split; [intros ?; contradiction|].
    intros _. exists mask, args, sol.
    split; [reflexivity|]. split; [exact Hargs|]. split; [exact Hsol|].
    apply take_drop.
Qed.

(** A closed instance in binary64 with method SAC. *)
Lemma returned_offsets_shape_witness :
  length [0; 0; 0]%float = 3%nat /\ length [0; 0; 0]%float = 3%nat.
Proof.
  refine (proj1 (returned_offsets_shape Examples.float_norm Examples.null_lstsq
                   Examples.null_least_squares 15 (Examples.centre "SAC" true 3)
                   (map s_prox_a Examples.trial4) (map s_dist_a Examples.trial4)
                   (map s_prox_w Examples.trial4) (map s_dist_w Examples.trial4)
                   (map s_prox_wd Examples.trial4) (map s_dist_wd Examples.trial4)
                   (map s_R Examples.trial4) _ _ 0.25%float _) eq_refl).
  vm_compute. reflexivity.
Defined.

(** * Lowering the threshold *)

(** A threshold that every value above [t] also exceeds retains at least
    the samples that [t] retains. *)
Lemma mask_at_weaker_threshold {F : Type} `{Scalar F} (t t' : F) :
  (forall x, sgtb x t = true -> sgtb x t' = true) ->
  forall prox_an dist_an : list F,
    (mask_sum (mask_at t prox_an dist_an) <= mask_sum (mask_at t' prox_an dist_an))%Z.
Proof.
  intros Hweaker. unfold mask_at, above.
  induction prox_an as [|p prox_an IH]; intros [|d dist_an]; simpl; try lia.
  specialize (IH dist_an).
  pose proof (Hweaker (sabs p)) as Hp. pose proof (Hweaker (sabs d)) as Hd.
  destruct (sgtb (sabs p) t), (sgtb (sabs d) t); simpl;
    try rewrite Hp by reflexivity; try rewrite Hd by reflexivity; simpl;
    destruct (sgtb (sabs p) t'), (sgtb (sabs d) t'); simpl; lia.
Qed.

Section Descent.
Context {F : Type} `{Scalar F}.
Variable steps : nat.
Hypothesis descends : forall (x : F) (k : nat),
  (k < steps)%nat -> sgtb x (ladder k) = true -> sgtb x (ladder (S k)) = true.

Lemma count_at_descent (prox_an dist_an : list F) (j k : nat) :
  (j <= k)%nat -> (k <= steps)%nat ->
  (count_at j prox_an dist_an <= count_at k prox_an dist_an)%Z.
Proof using descends.
  intros Hjk Hk. induction Hjk as [|k Hjk IH]; [lia|].
  etransitivity; [apply IH; lia|]. unfold count_at.
  apply mask_at_weaker_threshold. intros x. apply descends. lia.
Qed.
End Descent.

Lemma Qc_ltb_lt (x y : Qc) : Qc_ltb x y = true <-> (x < y)%Qc.
Proof.
  unfold Qc_ltb, Qclt, Qccompare. rewrite Qlt_alt.
  destruct (this x ?= this y)%Q; split; congruence.
Qed.

Lemma Qc_descends (x : Qc) (k : nat) :
  sgtb x (ladder (F := Qc) k) = true -> sgtb x (ladder (F := Qc) (S k)) = true.
Proof.
  simpl sgtb. rewrite !Qc_ltb_lt. intros Hlt.
  apply Qclt_trans with (ladder k); [|assumption].
  change (ladder (F := Qc) (S k)) with (ladder (F := Qc) k - Q2Qc (5 # 100))%Qc.
  rewrite <- (Qcplus_0_r (ladder k)) at 2. unfold Qcminus.
  apply Qcplus_lt_mono_l. reflexivity.
Qed.

(** The order of binary64 numbers, through their specification: below a
    positive finite number, "less than" composes. *)
Lemma SFltb_trans_finite (m1 m2 : positive) (e1 e2 : Z) (y : SpecFloat.spec_float) :
  SpecFloat.SFltb (SpecFloat.S754_finite false m1 e1) (SpecFloat.S754_finite false m2 e2)
  = true ->
  SpecFloat.SFltb (SpecFloat.S754_finite false m2 e2) y = true ->
  SpecFloat.SFltb (SpecFloat.S754_finite false m1 e1) y = true.
Proof.
  unfold SpecFloat.SFltb, SpecFloat.SFcompare. intros H12 H2y.
  destruct y as [s|s| |s m e]; try discriminate H2y.
  - destruct s; [discriminate H2y | reflexivity].
  - destruct s; [discriminate H2y|].
    change PosDef.Pos.compare_cont with Pos.compare_cont in *.
    fold (Pos.compare m1 m2) in H12. fold (Pos.compare m2 m) in H2y.
    fold (Pos.compare m1 m).
    destruct (Z.compare_spec e1 e2), (Z.compare_spec e2 e), (Z.compare_spec e1 e);
      try discriminate; try lia; try reflexivity;
      destruct (Pos.compare_spec m1 m2), (Pos.compare_spec m2 m), (Pos.compare_spec m1 m);
      try discriminate; try lia; try reflexivity.
Qed.

Ltac below_next_threshold :=
  match goal with
  | H : SpecFloat.SFltb (FloatOps.Prim2SF ?t) ?y = true
    |- SpecFloat.SFltb (FloatOps.Prim2SF ?t') ?y = true =>
      let v := eval vm_compute in (FloatOps.Prim2SF t) in
      let v' := eval vm_compute in (FloatOps.Prim2SF t') in
      change (FloatOps.Prim2SF t) with v in H;
      change (FloatOps.Prim2SF t') with v';
      eapply SFltb_trans_finite; [|exact H]; vm_compute; reflexivity
  end.

(** In binary64, a value above one of the thresholds 0.8 ... 0.15 is above
    the next threshold of the ladder. *)
Lemma float_descends (x : float) (k : nat) :
  (k < 14)%nat ->
  sgtb x (ladder (F := float) k) = true -> sgtb x (ladder (F := float) (S k)) = true.
Proof.
  intros Hk. simpl sgtb. rewrite !FloatAxioms.ltb_spec. intros Hx.
  do 14 (destruct k as [|k]; [below_next_threshold|]). lia.
Qed.

(** X15: lowering the threshold never loses a sample.  Along the ladder
    the number of retained samples does not decrease: in binary64 from step
    to step down to the last step above the floor, in exact arithmetic at
    every step.  Hence every step after a sufficient one is sufficient. *)
Theorem retained_count_grows_along_the_ladder :
  (forall (prox_an dist_an : list float) (j k : nat),
      (j <= k)%nat -> (k <= 14)%nat ->
      (count_at j prox_an dist_an <= count_at k prox_an dist_an)%Z)
  /\ (forall (prox_an dist_an : list Qc) (j k : nat),
        (j <= k)%nat ->
        (count_at j prox_an dist_an <= count_at k prox_an dist_an)%Z).
Proof.
  split.
  - intros prox_an dist_an j k Hjk Hk.
    apply (count_at_descent 14 float_descends); assumption.
  - intros prox_an dist_an j k Hjk.
    apply (count_at_descent k (fun x i _ => Qc_descends x i)); [assumption | lia].
Qed.

(** A closed instance in binary64: dynamic accelerations 0.875, 0.5 and
    0.125 on both sensors, counted at steps 0, 7 and 14. *)
Lemma retained_count_grows_along_the_ladder_witness :
  (count_at (F := float) 0 [0.875; 0.5; 0.125]%float [0.875; 0.5; 0.125]%float
   <= count_at 7 [0.875; 0.5; 0.125]%float [0.875; 0.5; 0.125]%float)%Z
  /\ (count_at (F := float) 7 [0.875; 0.5; 0.125]%float [0.875; 0.5; 0.125]%float
      <= count_at 14 [0.875; 0.5; 0.125]%float [0.875; 0.5; 0.125]%float)%Z.
Proof.
  split; apply (proj1 retained_count_grows_along_the_ladder); lia.
Defined.

(** * The two sensors and the defaults *)

Lemma broadcast2_andb_comm (u v : list bool) :
  broadcast2 andb u v = broadcast2 andb v u.
Proof.
  unfold broadcast2.
  destruct (decide (length u = length v)) as [Heq|Hne].
  - rewrite decide_True by congruence. f_equal. clear Heq.
    revert v. induction u as [|a u IH]; intros [|b v]; simpl; try reflexivity.
    now rewrite andb_comm, IH.
  - rewrite decide_False by congruence.
    destruct u as [|a [|a' u]], v as [|b [|b' v]]; simpl in *; try congruence;
      f_equal; try (apply map_ext; intros; apply andb_comm);
      f_equal; try apply andb_comm; f_equal; try apply andb_comm;
      apply map_ext; intros; apply andb_comm.
Qed.

Lemma mask_loop_swap {F : Type} `{Scalar F} (fuel : nat) (min_n : Z)
    (prox_an dist_an : list F) :
  forall (mask : list bool) (t : F),
    mask_loop fuel min_n prox_an dist_an mask t
    = mask_loop fuel min_n dist_an prox_an mask t.
Proof.
  induction fuel as [|fuel IH]; intros mask t; [reflexivity|].
  cbn [mask_loop]. destruct (mask_sum mask <? min_n)%Z; [|reflexivity].
  unfold logical_and. rewrite broadcast2_andb_comm.
  destruct (broadcast2 _ _ _) as [mask'| |]; simpl; try reflexivity.
  destruct (sltb _ _); [reflexivity | apply IH].
Qed.

(** X16: the selection treats the two sensors alike: for acceleration
    arrays of equal length, exchanging the proximal and the distal array
    gives the same outcome (the same mask, or the same error). *)
Theorem selection_is_symmetric_in_the_sensors {F : Type} `{Scalar F} {Kw : Type}
    (norm : vec3 F -> F) (fuel : nat) (self : Center F Kw)
    (prox_a dist_a : list (vec3 F)) :
  length prox_a = length dist_a ->
  select_mask norm fuel self prox_a dist_a = select_mask norm fuel self dist_a prox_a.
Proof.
  intros Hsame. unfold select_mask. destruct (mask_input self).
  - unfold dyn_accel at 3 6. rewrite !length_map, Hsame. apply mask_loop_swap.
  - now rewrite Hsame.
Qed.

(** A closed instance in binary64. *)
Lemma selection_is_symmetric_in_the_sensors_witness :
  select_mask (Kw := unit) Examples.float_norm 15 (Examples.centre "SAC" true 3)
    (map s_prox_a Examples.trial4) (map s_dist_a Examples.trial4)
  = select_mask Examples.float_norm 15 (Examples.centre "SAC" true 3)
      (map s_dist_a Examples.trial4) (map s_prox_a Examples.trial4).
Proof.
  apply selection_is_symmetric_in_the_sensors. reflexivity.
Defined.

(** X17: a [Center] constructed with every argument left at its default
    (method SAC, masking enabled, [min_samples] 1000, g 9.81) raises the
    insufficient-motion error, in binary64, on every pair of acceleration
    arrays of equal length below 1000 rows. *)
Theorem default_centre_needs_1000_samples {Kw : Type} (no_kwargs : Kw)
    (norm : vec3 float -> float)
    (lstsq : list (list float) -> list (list float) -> outcome (LstsqResult float))
    (least_squares : (list float -> Args float -> outcome (list float)) ->
                     list float -> Args float -> Kw -> outcome (OptimizeResult float))
    (extra : nat)
    (prox_a dist_a prox_w dist_w prox_wd dist_wd : list (vec3 float))
    (R_dist_prox : list (mat3 float)) :
  length prox_a = length dist_a ->
  (length prox_a < 1000)%nat ->
  compute norm lstsq least_squares (15 + extra)
    (Center_init no_kwargs None None None None None)
    prox_a dist_a prox_w dist_w prox_wd dist_wd R_dist_prox
  = Raised ValueError_motion.
Proof.
  intros Hsame Hshort.
  pose proof (select_mask_short_trial norm extra
                (Center_init no_kwargs None None None None None) prox_a dist_a
                eq_refl Hsame) as Hsel.
  unfold compute. rewrite decide_True by reflexivity.
  rewrite Hsel; [reflexivity|]. simpl. lia.
Qed.

(** A closed instance: the four samples of the example trial. *)
Lemma default_centre_needs_1000_samples_witness :
  compute Examples.float_norm Examples.null_lstsq Examples.null_least_squares 15
    (Center_init tt None None None None None)
    (map s_prox_a Examples.trial4) (map s_dist_a Examples.trial4)
    (map s_prox_w Examples.trial4) (map s_dist_w Examples.trial4)
    (map s_prox_wd Examples.trial4) (map s_dist_wd Examples.trial4)
    (map s_R Examples.trial4)
  = Raised ValueError_motion.
Proof.
  apply (default_centre_needs_1000_samples tt Examples.float_norm Examples.null_lstsq
           Examples.null_least_squares 0).
  - reflexivity.
  - simpl. lia.
Defined.

Section ExactScalars.
Context {F : Type} `{Scalar F}.
Hypothesis Fring : ring_theory s0 s1 sadd smul ssub sopp (@eq F).
Add Ring Fring_scalars : Fring.

Lemma ssub_swap (x y : F) : ssub y x = sopp (ssub x y).
Proof using Fring. ring. Qed.

Lemma smul_opp_opp (x : F) : smul (sopp x) (sopp x) = smul x x.
Proof using Fring. ring. Qed.
End ExactScalars.

(** X18: in exact arithmetic, exchanging the roles of the two sensors (their
    arrays and their candidate offsets) negates every residual of the
    residual function, so the sum of squares that the nonlinear solver
    minimises does not depend on which sensor is called proximal. *)
Theorem exchanging_the_sensors_negates_the_residuals {F : Type} `{Scalar F}
    (Fring : ring_theory s0 s1 sadd smul ssub sopp (@eq F))
    (norm : vec3 F -> F) (kept : list (sample F)) (r_prox r_dist : vec3 F) :
  exists e,
    compute_distance_residuals norm (offsets r_prox r_dist) (args_of kept) = Returned e
    /\ compute_distance_residuals norm (offsets r_dist r_prox)
         (args_of (map swap_sensors kept))
       = Returned (map sopp e)
    /\ map (fun x => smul (sopp x) (sopp x)) e = map (fun x => smul x x) e.
Proof.
  exists (map (ssfc_residual norm r_prox r_dist) kept). split; [|split].
  - apply (compute_distance_residuals_trial Fring).
  - unfold offsets. rewrite (compute_distance_residuals_trial Fring), !map_map.
    f_equal. apply map_ext. intros s. unfold ssfc_residual, swap_sensors; simpl.
    apply (ssub_swap Fring).
  - apply map_ext. intros x. apply (smul_opp_opp Fring).
Qed.

(** A closed instance in exact rationals. *)
Lemma exchanging_the_sensors_negates_the_residuals_witness :
  exists e,
    compute_distance_residuals Examples.axis_norm
      (offsets (V3 s1 s0 s0) (V3 s0 s1 s0)) (args_of (Examples.trial4 (F := Qc)))
    = Returned e
    /\ compute_distance_residuals Examples.axis_norm
         (offsets (V3 s0 s1 s0) (V3 s1 s0 s0))
         (args_of (map swap_sensors Examples.trial4))
       = Returned (map sopp e)
    /\ map (fun x => smul (sopp x) (sopp x)) e = map (fun x => smul x x) e.
Proof.
  apply (exchanging_the_sensors_negates_the_residuals (H := Qc_scalar) Qcrt).
Defined.

Section ExactCross.
Context {F : Type} `{Scalar F}.
Hypothesis Fring : ring_theory s0 s1 sadd smul ssub sopp (@eq F).
Add Ring Fring_cross : Fring.

(** In exact arithmetic, what [numpy.cross] computes for an operand of two
    entries is the cross product with (r0, r1, 0). *)
Lemma cross_with_two_entries (b0 b1 : F) (a : vec3 F) :
  exists cr, cross_with [b0; b1] = Returned cr /\ cr a = cross a (V3 b0 b1 s0).
Proof using Fring.
  eexists. split; [reflexivity|]. destruct a as [ax ay az].
  unfold cross; simpl. f_equal; ring.
Qed.
End ExactCross.
